(** * The attribute-indentation rule of ember-template-lint

    A shallow embedding of [lib/rules/lint-attribute-indentation.js] and the
    properties of its position-inference algorithm.

    Conventions of the embedding.
    - JavaScript numbers that hold line and column numbers are integers ([Z]).
    - JavaScript strings are [string]; one [ascii] stands for one code unit.
    - An AST node is a value of the closed variant [Node]; a property the
      variant does not have reads as [None] (JavaScript [undefined]), and a
      property read on [undefined] throws a [TypeError].
    - The rule is an object with mutable surroundings: the visited node (the
      rule decrements a column inside it) and the log collaborator.  Both are
      threaded through the monad [M], whose outcomes are a normal return or a
      thrown exception, each with the state reached. *)

From Stdlib Require Import ZArith List String Ascii Bool Lia DecimalString.
Import ListNotations.

Open Scope string_scope.
Open Scope list_scope.
Open Scope Z_scope.

Infix "+:+" := String.append (at level 60, right associativity).

(** Strict equality of two strings. *)
Infix "===" := String.eqb (at level 70, no associativity).

(** ** Source coordinates *)

Record Position := mkPosition { line : Z; column : Z }.

Module Loc.
Record t := make { source : option string; start : Position; end_ : Position }.
End Loc.

(** [a.line !== b.line || a.column !== b.column] *)
Definition differs (a b : Position) : bool :=
  negb (line a =? line b) || negb (column a =? column b).

(** ** JavaScript values met in the tree *)

(** An AST node held in the [value] property of a hash pair or attribute:
    only its [type] and [loc] are read. *)
Module ValueNode.
Record t := make { type : string; loc : Loc.t }.
End ValueNode.

Inductive JSValue :=
| VUndefined
| VNull
| VBoolean (b : bool)
| VNumber (n : Z)
| VString (s : string)
| VObject (o : ValueNode.t).

(** ToBoolean *)
Definition truthy (v : JSValue) : bool :=
  match v with
  | VUndefined | VNull => false
  | VBoolean b => b
  | VNumber n => negb (n =? 0)
  | VString s => negb (String.eqb s EmptyString)
  | VObject _ => true
  end.

(** Number to string, for integers. *)
Definition showZ (n : Z) : string := NilZero.string_of_int (Z.to_int n).

(** ToString, as a template literal applies it. *)
Definition toString (v : JSValue) : string :=
  match v with
  | VUndefined => "undefined"
  | VNull => "null"
  | VBoolean true => "true"
  | VBoolean false => "false"
  | VNumber n => showZ n
  | VString s => s
  | VObject _ => "[object Object]"
  end.

(** ** The syntax tree *)

Module Path.
Record t := make { original : string; loc : Loc.t }.
End Path.

(** One entry of [node.params], [node.hash.pairs] or [node.attributes].
    A property that the entry's kind does not carry is [VUndefined]
    (or [None] for [path]). *)
Module Param.
Record t := make {
  type : string;
  loc : Loc.t;
  original : JSValue;
  name : JSValue;
  key : JSValue;
  path : option Path.t;
  value : JSValue
}.

(** [param.loc.start.column--] *)
Definition decrementStartColumn (p : t) : t :=
  let l := loc p in
  let s := Loc.start l in
  make (type p)
       (Loc.make (Loc.source l) (mkPosition (line s) (column s - 1)) (Loc.end_ l))
       (original p) (name p) (key p) (path p) (value p).
End Param.

Module Hash.
Record t := make { pairs : list Param.t; loc : Loc.t }.
End Hash.

Module Program.
Record t := make { loc : Loc.t; blockParams : option (list string) }.
End Program.

(** A child of a markup element: only [type] and [loc] are read. *)
Module Child.
Record t := make { type : string; loc : Loc.t }.
End Child.

Inductive Node :=
| BlockStatement (path : Path.t) (params : list Param.t) (hash : Hash.t)
                 (program : Program.t) (loc : Loc.t)
| MustacheStatement (path : Path.t) (params : list Param.t) (hash : Hash.t)
                    (loc : Loc.t)
| ElementNode (tag : string) (attributes : list Param.t)
              (children : list Child.t) (selfClosing : bool) (loc : Loc.t).

Module Node.
Definition type (n : Node) : string :=
  match n with
  | BlockStatement _ _ _ _ _ => "BlockStatement"
  | MustacheStatement _ _ _ _ => "MustacheStatement"
  | ElementNode _ _ _ _ _ => "ElementNode"
  end.

Definition loc (n : Node) : Loc.t :=
  match n with
  | BlockStatement _ _ _ _ l | MustacheStatement _ _ _ l
  | ElementNode _ _ _ _ l => l
  end.

Definition path (n : Node) : option Path.t :=
  match n with
  | BlockStatement p _ _ _ _ | MustacheStatement p _ _ _ => Some p
  | ElementNode _ _ _ _ _ => None
  end.

Definition params (n : Node) : option (list Param.t) :=
  match n with
  | BlockStatement _ ps _ _ _ | MustacheStatement _ ps _ _ => Some ps
  | ElementNode _ _ _ _ _ => None
  end.

Definition hash (n : Node) : option Hash.t :=
  match n with
  | BlockStatement _ _ h _ _ | MustacheStatement _ _ h _ => Some h
  | ElementNode _ _ _ _ _ => None
  end.

Definition program (n : Node) : option Program.t :=
  match n with
  | BlockStatement _ _ _ p _ => Some p
  | _ => None
  end.

Definition tag (n : Node) : option string :=
  match n with
  | ElementNode t _ _ _ _ => Some t
  | _ => None
  end.

Definition attributes (n : Node) : option (list Param.t) :=
  match n with
  | ElementNode _ a _ _ _ => Some a
  | _ => None
  end.

Definition children (n : Node) : option (list Child.t) :=
  match n with
  | ElementNode _ _ c _ _ => Some c
  | _ => None
  end.

(** [!node.selfClosing]: an absent property is falsy. *)
Definition selfClosing (n : Node) : bool :=
  match n with
  | ElementNode _ _ _ sc _ => sc
  | _ => false
  end.

(** The store after [node.params[0].loc.start.column--]; [None] when
    [node.params[0]] is [undefined]. *)
Definition decrementFirstParamColumn (n : Node) : option Node :=
  match n with
  | BlockStatement p (first :: rest) h pr l =>
      Some (BlockStatement p (Param.decrementStartColumn first :: rest) h pr l)
  | MustacheStatement p (first :: rest) h l =>
      Some (MustacheStatement p (Param.decrementStartColumn first :: rest) h l)
  | _ => None
  end.
End Node.

(** ** Configuration *)

(** The normalized options.  [processElements] is [None] when the property
    was never assigned. *)
Module Options.
Record t := make {
  maxLength : Z;
  indentation : Z;
  processElements : option bool
}.
End Options.

(** ** Applicability gate *)

Definition getEndLocationForOpen (node : Node) : Position :=
  match node with
  | BlockStatement _ _ _ program _ => Loc.start (Program.loc program)
  | ElementNode _ _ (child :: _) _ _ => Loc.start (Child.loc child)
  | _ => Loc.end_ (Node.loc node)
  end.

Definition canApplyRule (node : Node) (type : string) (config : Options.t) : bool :=
  let end_ := getEndLocationForOpen node in
  let start := Loc.start (Node.loc node) in
  if line start =? line end_ then
    Options.maxLength config <? column end_ - column start
  else true.


(** ** Config normalizer *)

(** The mapping shape of the configuration, restricted to the three keys the
    rule reads; [None] is an absent key (["k" in config] is [false]). *)
Module ConfigObject.
Record t := make {
  open_invocation_max_len : option Z;
  indentation : option Z;
  process_elements : option bool
}.
End ConfigObject.

(** A raw configuration value, one constructor for every result of
    [typeof].  Of a value that is neither a boolean nor a mapping only its
    [typeof] matters; [CArray] and [CNull] are the two non-mapping values
    whose [typeof] is ["object"]. *)
Inductive ConfigValue :=
| CUndefined
| CNull
| CBoolean (b : bool)
| CNumber (n : Z)
| CString (s : string)
| CFunction
| CSymbol
| CBigInt (n : Z)
| CArray
| CObject (o : ConfigObject.t).

Definition typeof (config : ConfigValue) : string :=
  match config with
  | CUndefined => "undefined"
  | CNull | CArray | CObject _ => "object"
  | CBoolean _ => "boolean"
  | CNumber _ => "number"
  | CString _ => "string"
  | CFunction => "function"
  | CSymbol => "symbol"
  | CBigInt _ => "bigint"
  end.

Inductive JSError :=
| TypeError (reading : string)
| Error (message : string).

(** What [parseConfig] returns: [false], or an options object. *)
Inductive ParsedConfig :=
| Disabled
| Enabled (options : Options.t).

(** The right operand of [in]: the keys of a mapping, no key at all for an
    array, and a [TypeError] for [null]. *)
Definition configKeys (config : ConfigValue) : JSError + ConfigObject.t :=
  match config with
  | CObject o => inr o
  | CArray => inr (ConfigObject.make None None None)
  | _ => inl (TypeError "Cannot use 'in' operator to search for a key in a value that is not an object")
  end.

Definition usageLines : list string :=
  [ "  * boolean - `true` - Enables the rule to be enforced when the opening invocation has more than 80 characters or when it spans multiple lines.";
    "  * { open-invocation-max-len: n characters, indentation: m  } - n : The max length of the opening invocation can be configured";
    "  *                                                            - m : The desired indentation of attribute";
    "  * { process-elements: `boolean` }                         - `true` : Also parse HTML/SVG attributes" ].

(** [createErrorMessage] lives in [lib/helpers/create-error-message.js] and is
    taken as a parameter.  It gives the message ([inr]) or throws itself
    ([inl]), as it may while it renders the value it was given. *)
Definition parseConfig
    (createErrorMessage :
       string -> list string -> ConfigValue -> JSError + string)
    (ruleName : string) (config : ConfigValue) : JSError + ParsedConfig :=
  let configType := typeof config in
  if configType === "boolean" then
    match config with
    | CBoolean true => inr (Enabled (Options.make 80 2 (Some true)))
    | _ => inr Disabled
    end
  else if configType === "object" then
    match configKeys config with
    | inl e => inl e
    | inr o =>
        let maxLength :=
          match ConfigObject.open_invocation_max_len o with
          | Some n => n
          | None => 80
          end in
        let indentation :=
          match ConfigObject.indentation o with
          | Some m => m
          | None => 2
          end in
        inr (Enabled (Options.make maxLength indentation
                                   (ConfigObject.process_elements o)))
    end
  else if configType === "undefined" then inr Disabled
  else
    match createErrorMessage ruleName usageLines config with
    | inl thrown => inl thrown
    | inr errorMessage => inl (Error errorMessage)
    end.

(** ** The rule object and its surroundings *)

(** The span handed to [sourceForNode]; the end column is absent in one call
    of [getBlockParamStartLoc]. *)
Module Span.
Record t := make { start : Position; endLine : Z; endColumn : option Z }.

Definition ofLoc (l : Loc.t) : t :=
  make (Loc.start l) (line (Loc.end_ l)) (Some (column (Loc.end_ l))).

Definition between (a b : Position) : t :=
  make a (line b) (Some (column b)).
End Span.

(** [this]: the normalized options, the source split into lines, and the
    source accessor of the base class (in [lib/rules/base.js], taken as a
    parameter). *)
Module Rule.
Record t := make {
  config : Options.t;
  source : list string;
  sourceForNode : Span.t -> string
}.
End Rule.

Module Diagnostic.
Record t := make { message : string; line : Z; column : Z; source : string }.
End Diagnostic.

(** One evaluation of a coordinate test
    [a.line !== b.line || a.column !== b.column]. *)
Module Comparison.
Record t := make { expected : Position; actual : Position }.
End Comparison.

(** What [getBlockParamStartLoc] returns; [actual] can be left [undefined]. *)
Module Expectation.
Record t := make { actual : option Position; expected : Position }.
End Expectation.

(** The mutable surroundings of a visit: the visited node, what the log
    collaborator has received, and (ghost) the coordinate tests evaluated
    so far. *)
Record RuleState := mkState {
  tree : Node;
  logged : list Diagnostic.t;
  compared : list Comparison.t
}.

Inductive Outcome (A : Type) :=
| Returned (a : A) (s : RuleState)
| Thrown (e : JSError) (s : RuleState).

Arguments Returned {A} a s.
Arguments Thrown {A} e s.

Definition finalState {A} (o : Outcome A) : RuleState :=
  match o with
  | Returned _ s | Thrown _ s => s
  end.

Definition M (A : Type) : Type := RuleState -> Outcome A.

Definition ret {A} (a : A) : M A := fun s => Returned a s.

Definition bind {A B} (m : M A) (k : A -> M B) : M B :=
  fun s =>
    match m s with
    | Returned a s' => k a s'
    | Thrown e s' => Thrown e s'
    end.

Notation "x <- m ;; k" := (bind m (fun x => k))
  (at level 61, m at next level, right associativity).
Notation "m ;;; k" := (bind m (fun _ => k))
  (at level 61, right associativity).

Definition throw {A} (e : JSError) : M A := fun s => Thrown e s.

(** The object the variable [node] refers to, as it is now. *)
Definition thisNode : M Node := fun s => Returned (tree s) s.

Definition setNode (n : Node) : M unit :=
  fun s => Returned tt (mkState n (logged s) (compared s)).

(** [this.log(...)] *)
Definition log (d : Diagnostic.t) : M unit :=
  fun s => Returned tt (mkState (tree s) (logged s ++ [d]) (compared s)).

(** A property read that throws when its object is [undefined]. *)
Definition prop {A} (reading : string) (o : option A) : M A :=
  match o with
  | Some a => ret a
  | None => throw (TypeError reading)
  end.

(** The coordinate test, recorded in the ghost trace. *)
Definition mismatch (expected actual : Position) : M bool :=
  fun s =>
    Returned (differs actual expected)
             (mkState (tree s) (logged s)
                      (compared s ++ [Comparison.make expected actual])).

(** ** Text helpers *)

(** [\s], on code units below 256. *)
Definition isWhiteSpace (c : ascii) : bool :=
  let n := N_of_ascii c in
  ((9 <=? n) && (n <=? 13) || (n =? 32) || (n =? 160))%N.

Fixpoint leadingWhiteSpace (s : string) : Z :=
  match s with
  | String c rest => if isWhiteSpace c then 1 + leadingWhiteSpace rest else 0
  | EmptyString => 0
  end.

(** [statement.match] throws when [statement] is [undefined]. *)
Definition getWhiteSpaceLength (statement : option string) : M Z :=
  s <- prop "statement.match" statement ;;
  ret (leadingWhiteSpace s).

Fixpoint trimStart (s : string) : string :=
  match s with
  | String c rest => if isWhiteSpace c then trimStart rest else s
  | EmptyString => EmptyString
  end.

Fixpoint trimEnd (s : string) : string :=
  match s with
  | String c rest =>
      match trimEnd rest with
      | EmptyString => if isWhiteSpace c then EmptyString else String c EmptyString
      | rest' => String c rest'
      end
  | EmptyString => EmptyString
  end.

Definition trim (s : string) : string := trimEnd (trimStart s).

Definition len (s : string) : Z := Z.of_nat (String.length s).

(** [array[i]] for an integer index. *)
Definition index {A} (l : list A) (i : Z) : option A :=
  if i <? 0 then None else nth_error l (Z.to_nat i).

(** [L${line}:C${column}] *)
Definition showPosition (p : Position) : string :=
  "L" +:+ showZ (line p) +:+ ":C" +:+ showZ (column p).

(** ** Position calculator and validators *)

Definition nonEmpty {A} (l : list A) : bool :=
  negb (Z.of_nat (List.length l) =? 0).

(** [array[array.length - 1]] *)
Definition lastOf {A} (l : list A) : option A :=
  index l (Z.of_nat (List.length l) - 1).

Definition getBlockParamStartLoc (this : Rule.t) : M Expectation.t :=
  node <- thisNode ;;
  match node with
  | BlockStatement path params hash program loc =>
      let programStartLoc := Loc.start (Program.loc program) in
      let nodeStart := Loc.start loc in
      if (Z.of_nat (List.length params) =? 0)
         && (Z.of_nat (List.length (Hash.pairs hash)) =? 0) then
        let expected := mkPosition (line nodeStart + 1) (column nodeStart) in
        if line nodeStart =? line programStartLoc then
          let displayName := "{{#" +:+ Path.original path in
          ret (Expectation.make
                 (Some (mkPosition (line nodeStart) (len displayName)))
                 expected)
        else
          let source :=
            Rule.sourceForNode this
              (Span.between (mkPosition (line programStartLoc) 0)
                            programStartLoc) in
          whiteSpace <- getWhiteSpaceLength (Some source) ;;
          ret (Expectation.make
                 (Some (mkPosition (line programStartLoc) whiteSpace))
                 expected)
      else
        let paramOrHashPairEndLoc : option Position := None in
        let paramOrHashPairEndLoc :=
          if nonEmpty params then
            option_map (fun p => Loc.end_ (Param.loc p)) (lastOf params)
          else paramOrHashPairEndLoc in
        let paramOrHashPairEndLoc :=
          if nonEmpty (Hash.pairs hash) then Some (Loc.end_ (Hash.loc hash))
          else paramOrHashPairEndLoc in
        tail <- prop "paramOrHashPairEndLoc.line" paramOrHashPairEndLoc ;;
        let expected := mkPosition (line tail + 1) (column (Loc.start loc)) in
        if line tail =? line programStartLoc then
          ret (Expectation.make (Some tail) expected)
        else if line tail <? line programStartLoc then
          let hashPairLineEndSource :=
            trim (Rule.sourceForNode this (Span.make tail (line tail) None)) in
          if negb (hashPairLineEndSource === EmptyString) then
            ret (Expectation.make (Some tail) expected)
          else
            whiteSpace <-
              getWhiteSpaceLength
                (index (Rule.source this) (line programStartLoc - 1)) ;;
            ret (Expectation.make
                   (Some (mkPosition (line programStartLoc) whiteSpace))
                   expected)
        else ret (Expectation.make None expected)
  | _ => throw (TypeError "node.program.loc")
  end.

Definition validateBlockParams (this : Rule.t) : M unit :=
  location <- getBlockParamStartLoc this ;;
  let expected := Expectation.expected location in
  actual <- prop "actual.line" (Expectation.actual location) ;;
  differ <- mismatch expected actual ;;
  if differ : bool then
    node <- thisNode ;;
    program <- prop "node.program.loc" (Node.program node) ;;
    let blockParamStatement :=
      trim (Rule.sourceForNode this
              (Span.between actual (Loc.start (Program.loc program)))) in
    let message :=
      "Incorrect indentation of block params '" +:+ blockParamStatement
        +:+ "' beginning at " +:+ showPosition actual
        +:+ ". Expecting the block params to be at " +:+ showPosition expected
        +:+ "." in
    log (Diagnostic.make message (line actual) (column actual)
           (Rule.sourceForNode this (Span.ofLoc (Node.loc node))))
  else ret tt.

(** A reference to one of the arrays owned by the visited node.  The callee
    of [iterateParams] receives the array object itself, so a write through
    [node.params[0]] shows through the reference. *)
Inductive ArrayRef := node_params | node_hash_pairs | node_attributes.

Definition deref (r : ArrayRef) (n : Node) : option (list Param.t) :=
  match r with
  | node_params => Node.params n
  | node_hash_pairs => option_map Hash.pairs (Node.hash n)
  | node_attributes => Node.attributes n
  end.

(** [param[namePath]] *)
Definition getProperty (param : Param.t) (namePath : string) : JSValue :=
  if namePath === "original" then Param.original param
  else if namePath === "name" then Param.name param
  else if namePath === "key" then Param.key param
  else VUndefined.

(** [value.type] for a truthy [value]. *)
Definition typeOfValue (v : JSValue) : option string :=
  match v with
  | VObject o => Some (ValueNode.type o)
  | _ => None
  end.

(** [param.value.loc.end.line] *)
Definition valueEndLine (v : JSValue) : M Z :=
  match v with
  | VObject o => ret (line (Loc.end_ (ValueNode.loc o)))
  | _ => throw (TypeError "param.value.loc.end")
  end.

Definition isType (t : option string) (name : string) : bool :=
  match t with
  | Some s => s === name
  | None => false
  end.

(** The message template of [iterateParams]. *)
Definition paramMessage (paramType paramName : string)
    (actualStartLocation expectedStartLocation : Position) : string :=
  "Incorrect indentation of " +:+ paramType +:+ " '" +:+ paramName
    +:+ "' beginning at " +:+ showPosition actualStartLocation
    +:+ ". Expected '" +:+ paramName +:+ "' to be at "
    +:+ showPosition expectedStartLocation +:+ ".".

(** The callback handed to [params.forEach]; the captured variable
    [expectedLineStart] goes in and comes out. *)
Definition eachParam (this : Rule.t) (paramType namePath : string)
    (expectedColumnStart : Z) (param : Param.t) (expectedLineStart : Z) : M Z :=
  let actualStartLocation := Loc.start (Param.loc param) in
  differ <- mismatch (mkPosition expectedLineStart expectedColumnStart)
                     actualStartLocation ;;
  (if differ : bool then
     paramName <-
       (if truthy (getProperty param namePath) then
          ret (toString (getProperty param namePath))
        else
          path <- prop "param.path.original" (Param.path param) ;;
          ret (Path.original path)) ;;
     let message :=
       paramMessage paramType paramName actualStartLocation
         (mkPosition expectedLineStart expectedColumnStart) in
     node <- thisNode ;;
     log (Diagnostic.make message (line actualStartLocation)
            (column actualStartLocation)
            (Rule.sourceForNode this (Span.ofLoc (Node.loc node))))
   else ret tt) ;;;
  let type :=
    if truthy (Param.value param) then typeOfValue (Param.value param)
    else Some (Param.type param) in
  expectedLineStart <-
    (if isType type "SubExpression" then
       if negb (line (Loc.start (Param.loc param))
                  =? line (Loc.end_ (Param.loc param)))
       then ret (line (Loc.end_ (Param.loc param)))
       else ret expectedLineStart
     else if isType type "MustacheStatement" then
       valueEndLine (Param.value param)
     else ret expectedLineStart) ;;
  ret (expectedLineStart + 1).

Fixpoint forEach (params : list Param.t) (callback : Param.t -> Z -> M Z)
    (expectedLineStart : Z) : M Z :=
  match params with
  | [] => ret expectedLineStart
  | param :: rest =>
      expectedLineStart <- callback param expectedLineStart ;;
      forEach rest callback expectedLineStart
  end.

Definition isSynthetic (path : Path.t) : bool :=
  match Loc.source (Path.loc path) with
  | Some s => s === "(synthetic)"
  | None => false
  end.

Definition iterateParams (this : Rule.t) (params : ArrayRef) (type : string)
    (expectedLineStart expectedColumnStart : Z) : M Z :=
  setup <-
    (if type === "positional" then
       node <- thisNode ;;
       path <- prop "node.path.loc" (Node.path node) ;;
       if isSynthetic path then
         (if Node.type node === "BlockStatement" then
            node' <- prop "node.params[0].loc"
                          (Node.decrementFirstParamColumn node) ;;
            setNode node'
          else ret tt) ;;;
         ret ("positional param", "original", expectedLineStart - 1)
       else ret ("positional param", "original", expectedLineStart)
     else if type === "htmlAttribute" then
       ret ("htmlAttribute", "name", expectedLineStart)
     else ret ("attribute", "key", expectedLineStart)) ;;
  let paramType := fst (fst setup) in
  let namePath := snd (fst setup) in
  let expectedLineStart := snd setup in
  node <- thisNode ;;
  array <- prop "params.forEach" (deref params node) ;;
  forEach array (eachParam this paramType namePath expectedColumnStart)
          expectedLineStart.

Definition validateParams (this : Rule.t) : M Z :=
  node <- thisNode ;;
  let expectedColumnStart :=
    column (Loc.start (Node.loc node))
    + Options.indentation (Rule.config this) in
  let expectedLineStart := line (Loc.start (Node.loc node)) + 1 in
  if Node.type node === "ElementNode" then
    iterateParams this node_attributes "htmlAttribute"
                  expectedLineStart expectedColumnStart
  else
    expectedLineStart <-
      iterateParams this node_params "positional"
                    expectedLineStart expectedColumnStart ;;
    iterateParams this node_hash_pairs "attribute"
                  expectedLineStart expectedColumnStart.

(** [node.type === 'ElementNode' ? node.tag : node.path.original] *)
Definition componentName (node : Node) : string :=
  match node with
  | ElementNode tag _ _ _ _ => tag
  | BlockStatement path _ _ _ _ | MustacheStatement path _ _ _ =>
      Path.original path
  end.

Definition validateCloseBrace (this : Rule.t) (expectedStartLine : Z) : M unit :=
  node <- thisNode ;;
  let end_ := getEndLocationForOpen node in
  let actualColumnStartLocation :=
    if (Node.type node === "ElementNode") && negb (Node.selfClosing node)
    then 1 else 2 in
  let actualStartLocation :=
    mkPosition (line end_) (column end_ - actualColumnStartLocation) in
  let expectedStartLocation :=
    mkPosition expectedStartLine (column (Loc.start (Node.loc node))) in
  let componentName := componentName node in
  differ <- mismatch expectedStartLocation actualStartLocation ;;
  if differ : bool then
    let message :=
      if Node.type node === "ElementNode" then
        "Incorrect indentation of close bracket '>' for the element '<"
          +:+ componentName +:+ ">' beginning at "
          +:+ showPosition actualStartLocation +:+ ". Expected '<"
          +:+ componentName +:+ ">' to be at "
          +:+ showPosition expectedStartLocation +:+ "."
      else
        "Incorrect indentation of close curly braces '}}' for the component '{{"
          +:+ componentName +:+ "}}' beginning at "
          +:+ showPosition actualStartLocation +:+ ". Expected '{{"
          +:+ componentName +:+ "}}' to be at "
          +:+ showPosition expectedStartLocation +:+ "." in
    log (Diagnostic.make message (line actualStartLocation)
           (column actualStartLocation)
           (Rule.sourceForNode this (Span.ofLoc (Node.loc node))))
  else ret tt.

Definition validateClosingTag (this : Rule.t) (expectedStartLine : Z) : M unit :=
  node <- thisNode ;;
  tag <- prop "node.tag.length" (Node.tag node) ;;
  let actualColumnStartLocation := 3 + len tag in
  let actualStartLocation :=
    mkPosition (line (Loc.end_ (Node.loc node)))
               (column (Loc.end_ (Node.loc node)) - actualColumnStartLocation) in
  let expectedStartLocation :=
    mkPosition expectedStartLine (column (Loc.start (Node.loc node))) in
  let tagName := componentName node in
  differ <- mismatch expectedStartLocation actualStartLocation ;;
  if differ : bool then
    let message :=
      "Incorrect indentation of close tag '</" +:+ tagName
        +:+ ">' for element '<" +:+ tagName +:+ ">' beginning at "
        +:+ showPosition actualStartLocation +:+ ". Expected '</"
        +:+ tagName +:+ ">' to be at "
        +:+ showPosition expectedStartLocation +:+ "." in
    log (Diagnostic.make message (line actualStartLocation)
           (column actualStartLocation)
           (Rule.sourceForNode this (Span.ofLoc (Node.loc node))))
  else ret tt.

(** The result is [None] when the function returns nothing. *)
Definition validateNonBlockForm (this : Rule.t) : M (option Z) :=
  node <- thisNode ;;
  params <- prop "node.params.length" (Node.params node) ;;
  hash <- prop "node.hash.pairs" (Node.hash node) ;;
  if nonEmpty params || nonEmpty (Hash.pairs hash) then
    expectedStartLine <- validateParams this ;;
    validateCloseBrace this expectedStartLine ;;;
    ret (Some expectedStartLine)
  else ret None.

Definition validateBlockForm (this : Rule.t) : M unit :=
  node <- thisNode ;;
  params <- prop "node.params.length" (Node.params node) ;;
  hash <- prop "node.hash.pairs" (Node.hash node) ;;
  (if nonEmpty params || nonEmpty (Hash.pairs hash) then
     validateParams this ;;; ret tt
   else ret tt) ;;;
  node <- thisNode ;;
  program <- prop "node.program.blockParams" (Node.program node) ;;
  match Program.blockParams program with
  | Some blockParams =>
      if nonEmpty blockParams then validateBlockParams this else ret tt
  | None => ret tt
  end.

(** ** Visitor dispatch *)

Definition isEnabled (flag : option bool) : bool :=
  match flag with
  | Some b => b
  | None => false
  end.

Definition visitor_BlockStatement (this : Rule.t) : M (option Z) :=
  node <- thisNode ;;
  if canApplyRule node (Node.type node) (Rule.config this) then
    validateBlockForm this ;;; ret None
  else ret None.

Definition visitor_MustacheStatement (this : Rule.t) : M (option Z) :=
  node <- thisNode ;;
  if canApplyRule node (Node.type node) (Rule.config this) then
    validateNonBlockForm this
  else ret (Some (line (Loc.end_ (Node.loc node)))).

Definition visitor_ElementNode (this : Rule.t) : M (option Z) :=
  if isEnabled (Options.processElements (Rule.config this)) then
    node <- thisNode ;;
    (if canApplyRule node (Node.type node) (Rule.config this) then
       attributes <- prop "node.attributes.length" (Node.attributes node) ;;
       (if nonEmpty attributes then
          expectedCloseBraceLine <- validateParams this ;;
          validateCloseBrace this expectedCloseBraceLine
        else ret tt) ;;;
       children <- prop "node.children.length" (Node.children node) ;;
       if nonEmpty children then
         lastChild <- prop "lastChild.type" (lastOf children) ;;
         let expectedStartLine :=
           if Child.type lastChild === "BlockStatement"
           then line (Loc.end_ (Child.loc lastChild)) + 1
           else line (Loc.end_ (Child.loc lastChild)) in
         validateClosingTag this expectedStartLine
       else ret tt
     else ret tt) ;;;
    ret (Some (line (Loc.end_ (Node.loc node))))
  else ret None.

(** The tree walker calls the callback registered under the node's type. *)
Definition visitor (this : Rule.t) : M (option Z) :=
  node <- thisNode ;;
  match node with
  | BlockStatement _ _ _ _ _ => visitor_BlockStatement this
  | MustacheStatement _ _ _ _ => visitor_MustacheStatement this
  | ElementNode _ _ _ _ _ => visitor_ElementNode this
  end.

(** A visit of [node] by a rule that has logged nothing yet. *)
Definition visit (this : Rule.t) (node : Node) : Outcome (option Z) :=
  visitor this (mkState node [] []).

(** ** The stated behaviour, in the words of the specification *)

Module Stated.

(** The three kinds of entry that [validateParams] walks over. *)
Inductive Kind := positional | attribute | htmlAttribute.

Definition paramType (k : Kind) : string :=
  match k with
  | positional => "positional param"
  | attribute => "attribute"
  | htmlAttribute => "htmlAttribute"
  end.

Definition namePath (k : Kind) : string :=
  match k with
  | positional => "original"
  | attribute => "key"
  | htmlAttribute => "name"
  end.

(** The sequence validated for a node: positional then named arguments, or
    the attributes of a markup element. *)
Definition sequence (node : Node) : list (Kind * Param.t) :=
  match node with
  | BlockStatement _ params hash _ _ | MustacheStatement _ params hash _ =>
      map (pair positional) params ++ map (pair attribute) (Hash.pairs hash)
  | ElementNode _ attributes _ _ _ => map (pair htmlAttribute) attributes
  end.

(** The type under which an entry's value is judged: the value's own type
    for a hash pair or attribute, the entry's type for a positional
    argument. *)
Definition judgedType (entry : Param.t) : option string :=
  if truthy (Param.value entry) then typeOfValue (Param.value entry)
  else Some (Param.type entry).

Definition spansLines (l : Loc.t) : bool :=
  negb (line (Loc.start l) =? line (Loc.end_ l)).

(** The line an entry leaves behind: the end line of the entry when it is a
    sub-expression spanning several lines, the end line of its value when
    the value is an inline invocation, and the line it was expected on
    otherwise. *)
Definition advancingLine (entry : Param.t) (expectedLine : Z) : Z :=
  if isType (judgedType entry) "SubExpression" then
    if spansLines (Param.loc entry) then line (Loc.end_ (Param.loc entry))
    else expectedLine
  else if isType (judgedType entry) "MustacheStatement" then
    match Param.value entry with
    | VObject o => line (Loc.end_ (ValueNode.loc o))
    | _ => expectedLine
    end
  else expectedLine.

(** Expected line of every entry, the first one being expected on [first]. *)
Fixpoint expectedLines (entries : list (Kind * Param.t)) (first : Z) : list Z :=
  match entries with
  | [] => []
  | (_, entry) :: rest =>
      first :: expectedLines rest (advancingLine entry first + 1)
  end.

(** Expected line of whatever follows the sequence. *)
Fixpoint lineAfter (entries : list (Kind * Param.t)) (first : Z) : Z :=
  match entries with
  | [] => first
  | (_, entry) :: rest => lineAfter rest (advancingLine entry first + 1)
  end.

(** Expected coordinate of every entry. *)
Definition expectedCoordinates (entries : list (Kind * Param.t))
    (first column : Z) : list Position :=
  map (fun l => mkPosition l column) (expectedLines entries first).

Definition actualCoordinate (entry : Kind * Param.t) : Position :=
  Loc.start (Param.loc (snd entry)).

(** The display name of an entry: attribute name, named-argument key, or the
    textual form of a positional argument. *)
Definition displayName (entry : Kind * Param.t) : string :=
  let property := getProperty (snd entry) (namePath (fst entry)) in
  if truthy property then toString property
  else
    match Param.path (snd entry) with
    | Some path => Path.original path
    | None => EmptyString
    end.

(** An entry has a display name and, if it is judged an inline invocation,
    a value with a location. *)
Definition wellFormed (entry : Kind * Param.t) : bool :=
  (truthy (getProperty (snd entry) (namePath (fst entry)))
   || match Param.path (snd entry) with Some _ => true | None => false end)
  && (negb (isType (judgedType (snd entry)) "MustacheStatement")
      || match Param.value (snd entry) with VObject _ => true | _ => false end).

Definition report (this : Rule.t) (node : Node) (entry : Kind * Param.t)
    (expected : Position) : Diagnostic.t :=
  Diagnostic.make
    (paramMessage (paramType (fst entry)) (displayName entry)
                  (actualCoordinate entry) expected)
    (line (actualCoordinate entry)) (column (actualCoordinate entry))
    (Rule.sourceForNode this (Span.ofLoc (Node.loc node))).

(** Every entry is compared with its expected coordinate... *)
Definition comparisons (entries : list (Kind * Param.t))
    (expected : list Position) : list Comparison.t :=
  map (fun ec => Comparison.make (snd ec) (actualCoordinate (fst ec)))
      (combine entries expected).

(** ... and reported exactly when the two differ in line or in column. *)
Definition reports (this : Rule.t) (node : Node)
    (entries : list (Kind * Param.t)) (expected : list Position)
    : list Diagnostic.t :=
  map (fun ec => report this node (fst ec) (snd ec))
      (filter (fun ec => negb (line (actualCoordinate (fst ec)) =? line (snd ec))
                         || negb (column (actualCoordinate (fst ec))
                                    =? column (snd ec)))
              (combine entries expected)).

(** The end of the opening invocation or tag. *)
Definition openingEnd (node : Node) : Position :=
  match node with
  | BlockStatement _ _ _ body _ => Loc.start (Program.loc body)
  | MustacheStatement _ _ _ loc => Loc.end_ loc
  | ElementNode _ _ [] _ loc => Loc.end_ loc
  | ElementNode _ _ (first :: _) _ _ => Loc.start (Child.loc first)
  end.

(** The anchor of the block-parameter clause of a block form with arguments:
    the end of the named-argument group when there are named arguments, the
    end of the last positional argument otherwise. *)
Definition tail (params : list Param.t) (hash : Hash.t) : option Position :=
  match Hash.pairs hash with
  | _ :: _ => Some (Loc.end_ (Hash.loc hash))
  | [] => option_map (fun p => Loc.end_ (Param.loc p))
                     (nth_error params (List.length params - 1))
  end.

(** The same anchor with the precedence the other way round: the end of the
    last positional argument whenever there is one, the end of the
    named-argument group only otherwise. *)
Definition tailPositionalFirst (params : list Param.t) (hash : Hash.t)
    : option Position :=
  match params with
  | _ :: _ => option_map (fun p => Loc.end_ (Param.loc p))
                         (nth_error params (List.length params - 1))
  | [] => match Hash.pairs hash with
          | _ :: _ => Some (Loc.end_ (Hash.loc hash))
          | [] => None
          end
  end.

(** The invocation's path is marked synthetic. *)
Definition synthetic (node : Node) : bool :=
  match node with
  | BlockStatement path _ _ _ _ | MustacheStatement path _ _ _ =>
      isSynthetic path
  | ElementNode _ _ _ _ _ => false
  end.

Definition isBlock (node : Node) : bool :=
  match node with
  | BlockStatement _ _ _ _ _ => true
  | _ => false
  end.

(** The one correction: the first positional argument's start column, less
    one; every other span as it was. *)
Definition corrected (node : Node) : Node :=
  match node with
  | BlockStatement path (first :: rest) hash body loc =>
      BlockStatement path (Param.decrementStartColumn first :: rest)
                     hash body loc
  | _ => node
  end.

(** A path marked synthetic comes with a first positional argument: the
    rule reads [node.params[0]] of such a node without looking at the
    length of [node.params]. *)
Definition firstPositionalPresent (node : Node) : bool :=
  negb (synthetic node)
  || match Node.params node with
     | Some (_ :: _) => true
     | _ => false
     end.

End Stated.

(** ** A source accessor and sample templates *)

Definition zrange (first last : Z) : list Z :=
  map (fun k => first + Z.of_nat k) (seq 0 (Z.to_nat (last - first + 1))).

(** [line.slice(from, to)]; an absent [to] reads to the end of the line. *)
Definition slice (s : string) (from : Z) (to : option Z) : string :=
  let n := Z.to_nat from in
  match to with
  | Some t => substring n (Z.to_nat t - n) s
  | None => substring n (String.length s - n) s
  end.

Definition newline : string := String (ascii_of_nat 10) EmptyString.

(** Modelled from the spec: the source accessor [sourceForNode] of the base
    rule class ([lib/rules/base.js] is not among the sources).  Given a
    line/column span it returns the exact substring of the source: the lines
    of the span joined by a newline, the first cut at the start column and
    the last at the end column.  It is used for the sample templates only;
    every general statement below holds for any accessor. *)
Definition sourceForLoc (lines : list string) (span : Span.t) : string :=
  let first := line (Span.start span) in
  let last := Span.endLine span in
  let pick (i : Z) : string :=
    match index lines (i - 1) with
    | Some text =>
        slice text
              (if i =? first then column (Span.start span) else 0)
              (if i =? last then Span.endColumn span else None)
    | None => EmptyString
    end in
  String.concat newline (map pick (zrange first last)).

Module Sample.

Definition defaults : Options.t := Options.make 80 2 (Some true).

Definition rule (lines : list string) : Rule.t :=
  Rule.make defaults lines (sourceForLoc lines).

Definition at_ (l1 c1 l2 c2 : Z) : Loc.t :=
  Loc.make None (mkPosition l1 c1) (mkPosition l2 c2).

Definition syntheticLoc : Loc.t :=
  Loc.make (Some "(synthetic)") (mkPosition 1 0) (mkPosition 1 0).

Definition pathExpression (original : string) (loc : Loc.t) : Param.t :=
  Param.make "PathExpression" loc (VString original) VUndefined VUndefined
             None VUndefined.

Definition numberLiteral (n : Z) (loc : Loc.t) : Param.t :=
  Param.make "NumberLiteral" loc (VNumber n) VUndefined VUndefined
             None (VNumber n).

Definition hashPair (key : string) (loc : Loc.t) (valueType : string)
    (valueLoc : Loc.t) : Param.t :=
  Param.make "HashPair" loc VUndefined VUndefined (VString key) None
             (VObject (ValueNode.make valueType valueLoc)).

Definition attrNode (name : string) (loc : Loc.t) (valueType : string)
    (valueLoc : Loc.t) : Param.t :=
  Param.make "AttrNode" loc VUndefined (VString name) VUndefined None
             (VObject (ValueNode.make valueType valueLoc)).

Definition noHash : Hash.t := Hash.make [] syntheticLoc.

Definition fresh (node : Node) : RuleState := mkState node [] [].

(** A block form with a positional and a named argument, laid out as the
    rule wants it. *)
Definition employeeLines : list string :=
  [ "{{#employee-details";
    "  firstName";
    "  age=age";
    "as |employee|}}";
    "  {{employee.name}}";
    "{{/employee-details}}" ].

Definition employeePath : Path.t :=
  Path.make "employee-details" (at_ 1 3 1 19).

Definition employeeParams : list Param.t :=
  [ pathExpression "firstName" (at_ 2 2 2 11) ].

Definition employeeHash : Hash.t :=
  Hash.make [ hashPair "age" (at_ 3 2 3 9) "PathExpression" (at_ 3 6 3 9) ]
            (at_ 3 2 3 9).

Definition employeeBody : Program.t :=
  Program.make (at_ 4 15 6 0) (Some [ "employee" ]).

Definition employee : Node :=
  BlockStatement employeePath employeeParams employeeHash employeeBody
                 (at_ 1 0 6 21).

(** An inline form whose named argument is indented by four columns. *)
Definition contactLines : list string :=
  [ "{{contact-details";
    "  age";
    "    firstName=firstName";
    "}}" ].

Definition contact : Node :=
  MustacheStatement
    (Path.make "contact-details" (at_ 1 2 1 17))
    [ pathExpression "age" (at_ 2 2 2 5) ]
    (Hash.make [ hashPair "firstName" (at_ 3 4 3 23)
                          "PathExpression" (at_ 3 14 3 23) ]
               (at_ 3 4 3 23))
    (at_ 1 0 4 2).

(** A dotted invocation after it was rewritten into [component form.field]:
    the path [component] is synthetic and the written path, still on the
    opening line, is the first positional argument. *)
Definition dottedLines : list string :=
  [ "{{form.field";
    "  name=title";
    "}}" ].

Definition dotted : Node :=
  MustacheStatement
    (Path.make "component" syntheticLoc)
    [ pathExpression "form.field" (at_ 1 2 1 12) ]
    (Hash.make [ hashPair "name" (at_ 2 2 2 12) "PathExpression" (at_ 2 7 2 12) ]
               (at_ 2 2 2 12))
    (at_ 1 0 3 2).

(** The block form of the same rewriting. *)
Definition dottedBlockLines : list string :=
  [ "{{#form.field";
    "  name=title";
    "as |field|}}";
    "  {{field.input}}";
    "{{/form.field}}" ].

Definition dottedBlock : Node :=
  BlockStatement
    (Path.make "component" syntheticLoc)
    [ pathExpression "form.field" (at_ 1 3 1 13) ]
    (Hash.make [ hashPair "name" (at_ 2 2 2 12) "PathExpression" (at_ 2 7 2 12) ]
               (at_ 2 2 2 12))
    (Program.make (at_ 3 12 5 0) (Some [ "field" ]))
    (at_ 1 0 5 15).

(** An inline form whose first argument, the number zero, sits on the
    opening line. *)
Definition zeroLines : list string :=
  [ "{{foo-bar 0";
    "  baz=qux";
    "}}" ].

Definition zero : Node :=
  MustacheStatement
    (Path.make "foo-bar" (at_ 1 2 1 9))
    [ numberLiteral 0 (at_ 1 10 1 11) ]
    (Hash.make [ hashPair "baz" (at_ 2 2 2 9) "PathExpression" (at_ 2 6 2 9) ]
               (at_ 2 2 2 9))
    (at_ 1 0 3 2).

(** A block form without a body, whose body location the parser could not
    take from the source and left at L1:C0, above the arguments. *)
Definition hollowLines : list string :=
  [ "<div>";
    "  {{#foo-bar";
    "    baz=qux";
    "  as |x|}}{{/foo-bar}}";
    "</div>" ].

Definition hollow : Node :=
  BlockStatement
    (Path.make "foo-bar" (at_ 2 5 2 12))
    []
    (Hash.make [ hashPair "baz" (at_ 3 4 3 11) "PathExpression" (at_ 3 8 3 11) ]
               (at_ 3 4 3 11))
    (Program.make syntheticLoc (Some [ "x" ]))
    (at_ 2 2 4 22).

(** A block form with a synthetic path and named arguments only. *)
Definition namedOnly : Node :=
  BlockStatement
    (Path.make "component" syntheticLoc)
    []
    (Hash.make [ hashPair "name" (at_ 2 2 2 12) "PathExpression" (at_ 2 7 2 12) ]
               (at_ 2 2 2 12))
    (Program.make (at_ 3 12 5 0) (Some [ "field" ]))
    (at_ 1 0 5 15).

(** A short inline form on one line. *)
Definition shortLines : list string := [ "{{foo bar=baz}}" ].

Definition short : Node :=
  MustacheStatement
    (Path.make "foo" (at_ 1 2 1 5))
    []
    (Hash.make [ hashPair "bar" (at_ 1 6 1 13) "PathExpression" (at_ 1 10 1 13) ]
               (at_ 1 6 1 13))
    (at_ 1 0 1 15).

End Sample.

(** ** More sample templates *)

Module Layouts.

(** A block form without arguments whose clause shares the opening line. *)
Definition inlineClauseLines : list string :=
  [ "{{#employee-details as |employee|}}";
    "  {{employee.name}}";
    "{{/employee-details}}" ].

Definition inlineClause : Node :=
  BlockStatement
    (Path.make "employee-details" (Sample.at_ 1 3 1 19))
    [] Sample.noHash
    (Program.make (Sample.at_ 1 35 3 0) (Some [ "employee" ]))
    (Sample.at_ 1 0 3 21).

(** A block form without arguments, starting at column 2, whose clause sits
    on the next line at column 0. *)
Definition dedentedClauseLines : list string :=
  [ "  {{#employee-details";
    "as |employee|}}";
    "    {{employee.name}}";
    "  {{/employee-details}}" ].

Definition dedentedClause : Node :=
  BlockStatement
    (Path.make "employee-details" (Sample.at_ 1 5 1 21))
    [] Sample.noHash
    (Program.make (Sample.at_ 2 15 4 2) (Some [ "employee" ]))
    (Sample.at_ 1 2 4 23).

(** An inline form laid out as the rule wants it. *)
Definition tidyLines : list string :=
  [ "{{contact-details";
    "  age";
    "  firstName=firstName";
    "}}" ].

Definition tidy : Node :=
  MustacheStatement
    (Path.make "contact-details" (Sample.at_ 1 2 1 17))
    [ Sample.pathExpression "age" (Sample.at_ 2 2 2 5) ]
    (Hash.make [ Sample.hashPair "firstName" (Sample.at_ 3 2 3 21)
                                 "PathExpression" (Sample.at_ 3 12 3 21) ]
               (Sample.at_ 3 2 3 21))
    (Sample.at_ 1 0 4 2).

(** An inline form without arguments that spans two lines. *)
Definition bare : Node :=
  MustacheStatement (Path.make "yield" (Sample.at_ 1 2 1 7)) []
                    Sample.noHash (Sample.at_ 1 0 2 2).

(** A markup element with one attribute and one child, laid out as the rule
    wants it. *)
Definition sectionLines : list string :=
  [ "<section";
    "  class=x";
    ">";
    "  text";
    "</section>" ].

Definition section_ : Node :=
  ElementNode "section"
    [ Sample.attrNode "class" (Sample.at_ 2 2 2 9) "TextNode"
                      (Sample.at_ 2 8 2 9) ]
    [ Child.make "TextNode" (Sample.at_ 3 1 5 0) ]
    false (Sample.at_ 1 0 5 10).

(** The same element with nothing between its tags. *)
Definition emptySectionLines : list string :=
  [ "<section";
    "  class=x";
    "></section>" ].

Definition emptySection : Node :=
  ElementNode "section"
    [ Sample.attrNode "class" (Sample.at_ 2 2 2 9) "TextNode"
                      (Sample.at_ 2 8 2 9) ]
    [] false (Sample.at_ 1 0 3 11).

End Layouts.

(** ** Where the delimiters are measured *)

Module Geometry.

(** Width of the delimiter that closes the opening: one column for the
    bracket of an element that is not self-closing, two otherwise. *)
Definition closeBraceOffset (node : Node) : Z :=
  if (Node.type node === "ElementNode") && negb (Node.selfClosing node)
  then 1 else 2.

(** Where [validateCloseBrace] finds the closing delimiter. *)
Definition closeBraceActual (node : Node) : Position :=
  mkPosition (line (getEndLocationForOpen node))
             (column (getEndLocationForOpen node) - closeBraceOffset node).

(** Where [validateClosingTag] finds the closing tag. *)
Definition closingTagActual (node : Node) (tag : string) : Position :=
  mkPosition (line (Loc.end_ (Node.loc node)))
             (column (Loc.end_ (Node.loc node)) - (3 + len tag)).

(** A delimiter is expected on a given line at the node's start column. *)
Definition atStartColumn (node : Node) (expectedLine : Z) : Position :=
  mkPosition expectedLine (column (Loc.start (Node.loc node))).

(** The source text that follows the anchor on the anchor's own line,
    trimmed. *)
Definition trailingText (this : Rule.t) (tail : Position) : string :=
  trim (Rule.sourceForNode this (Span.make tail (line tail) None)).

(** The source text from the beginning of the body's start line up to the
    body. *)
Definition bodyLinePrefix (this : Rule.t) (program : Program.t) : string :=
  Rule.sourceForNode this
    (Span.between (mkPosition (line (Loc.start (Program.loc program))) 0)
                  (Loc.start (Program.loc program))).

(** The line expected after the close of a markup element's last child. *)
Definition closingTagLine (lastChild : Child.t) : Z :=
  if Child.type lastChild === "BlockStatement"
  then line (Loc.end_ (Child.loc lastChild)) + 1
  else line (Loc.end_ (Child.loc lastChild)).

(** A comparison that found the two coordinates different. *)
Definition failed (c : Comparison.t) : bool :=
  differs (Comparison.actual c) (Comparison.expected c).

(** Where a diagnostic points. *)
Definition position (d : Diagnostic.t) : Position :=
  mkPosition (Diagnostic.line d) (Diagnostic.column d).

(** An entry whose walk moves the expected line by exactly one: neither a
    sub-expression nor an inline invocation is involved. *)
Definition plain (entry : Param.t) : bool :=
  negb (isType (Stated.judgedType entry) "SubExpression")
  && negb (isType (Stated.judgedType entry) "MustacheStatement").

(** The node has positional or named arguments. *)
Definition hasArguments (params : list Param.t) (hash : Hash.t) : bool :=
  nonEmpty params || nonEmpty (Hash.pairs hash).

(** The body declares block parameters. *)
Definition declaresBlockParams (program : Program.t) : bool :=
  match Program.blockParams program with
  | Some blockParams => nonEmpty blockParams
  | None => false
  end.

End Geometry.

(** ** Options written back as a configuration *)

(** The mapping that spells out normalized options key by key;
    ['process-elements'] is left out when the options do not carry it. *)
Definition asMapping (options : Options.t) : ConfigObject.t :=
  ConfigObject.make (Some (Options.maxLength options))
                    (Some (Options.indentation options))
                    (Options.processElements options).

(** ** The last step of the walk's callback *)

(** What the callback of [iterateParams] does after the comparison: it
    moves the expected line to the end of a sub-expression that spans
    several lines, or to the end of an inline invocation held as value, and
    then one line further. *)
Definition advanceLine (param : Param.t) (expectedLineStart : Z) : M Z :=
  expectedLineStart <-
    (if isType (Stated.judgedType param) "SubExpression" then
       if negb (line (Loc.start (Param.loc param))
                  =? line (Loc.end_ (Param.loc param)))
       then ret (line (Loc.end_ (Param.loc param)))
       else ret expectedLineStart
     else if isType (Stated.judgedType param) "MustacheStatement" then
       valueEndLine (Param.value param)
     else ret expectedLineStart) ;;
  ret (expectedLineStart + 1).

(** ** Conditions on the log *)

(** [m] only appends: what was logged and compared before is still there,
    every new diagnostic quotes the source of the visited node, the node
    keeps its location, and the new diagnostics point, in order, at the
    new comparisons that failed, at all of them when [m] returns. *)
Definition orderly {A} (this : Rule.t) (m : M A) : Prop :=
  forall s, exists ds cs rest,
    logged (finalState (m s)) = logged s ++ ds
    /\ compared (finalState (m s)) = compared s ++ cs
    /\ Node.loc (tree (finalState (m s))) = Node.loc (tree s)
    /\ Forall (fun d => Diagnostic.source d
                        = Rule.sourceForNode this
                            (Span.ofLoc (Node.loc (tree s)))) ds
    /\ map Comparison.actual (filter Geometry.failed cs)
       = map Geometry.position ds ++ rest
    /\ (forall a s', m s = Returned a s' -> rest = []).

(** [m] logs and compares nothing and keeps the node's location. *)
Definition quiet {A} (m : M A) : Prop :=
  forall s,
    logged (finalState (m s)) = logged s
    /\ compared (finalState (m s)) = compared s
    /\ Node.loc (tree (finalState (m s))) = Node.loc (tree s).

(** ** Frame condition *)

(** [m] leaves the visited node as it found it, whether it returns or
    throws. *)
Definition keepsTree {A} (m : M A) : Prop :=
  forall s, tree (finalState (m s)) = tree s.

(** * Properties *)

(** ** Running the monad *)

Lemma bind_Returned {A B} (m : M A) (k : A -> M B) s a s' :
  m s = Returned a s' -> bind m k s = k a s'.
Proof. intros H. unfold bind. now rewrite H. Qed.

Lemma state_eta s : mkState (tree s) (logged s) (compared s) = s.
Proof. now destruct s. Qed.

(** ** The stated sequences, entry by entry *)

Lemma reports_cons this node e es c cs :
  Stated.reports this node (e :: es) (c :: cs) =
  Stated.reports this node [e] [c] ++ Stated.reports this node es cs.
Proof.
  unfold Stated.reports. cbn [combine filter fst snd].
  now destruct (negb _ || negb _).
Qed.

Lemma comparisons_cons e es c cs :
  Stated.comparisons (e :: es) (c :: cs) =
  Stated.comparisons [e] [c] ++ Stated.comparisons es cs.
Proof. reflexivity. Qed.

Lemma expectedCoordinates_cons k entry rest first column :
  Stated.expectedCoordinates ((k, entry) :: rest) first column =
  mkPosition first column
    :: Stated.expectedCoordinates rest
         (Stated.advancingLine entry first + 1) column.
Proof. reflexivity. Qed.

Lemma expectedCoordinates_app es1 : forall es2 first column,
  Stated.expectedCoordinates (es1 ++ es2) first column =
  Stated.expectedCoordinates es1 first column
    ++ Stated.expectedCoordinates es2 (Stated.lineAfter es1 first) column.
Proof.
  induction es1 as [|[k e] es1 IH]; intros es2 first column.
  - reflexivity.
  - cbn [app Stated.lineAfter]. rewrite !expectedCoordinates_cons, IH.
    reflexivity.
Qed.

Lemma lineAfter_app es1 : forall es2 first,
  Stated.lineAfter (es1 ++ es2) first =
  Stated.lineAfter es2 (Stated.lineAfter es1 first).
Proof.
  induction es1 as [|[k e] es1 IH]; intros es2 first; cbn; auto.
Qed.

Lemma expectedCoordinates_length es : forall first column,
  List.length (Stated.expectedCoordinates es first column) = List.length es.
Proof.
  induction es as [|[k e] es IH]; intros first column.
  - reflexivity.
  - rewrite expectedCoordinates_cons. cbn [List.length]. now rewrite IH.
Qed.

Lemma combine_app {A B} (l1 : list A) : forall (l2 : list A) (m1 m2 : list B),
  List.length l1 = List.length m1 ->
  combine (l1 ++ l2) (m1 ++ m2) = combine l1 m1 ++ combine l2 m2.
Proof.
  induction l1 as [|a l1 IH]; intros l2 [|b m1] m2 Hlen;
    try discriminate; cbn in *.
  - reflexivity.
  - f_equal. apply IH. congruence.
Qed.

Lemma reports_app this node es1 es2 cs1 cs2 :
  List.length es1 = List.length cs1 ->
  Stated.reports this node (es1 ++ es2) (cs1 ++ cs2) =
  Stated.reports this node es1 cs1 ++ Stated.reports this node es2 cs2.
Proof.
  intros Hlen. unfold Stated.reports.
  now rewrite combine_app, filter_app, map_app.
Qed.

Lemma comparisons_app es1 es2 cs1 cs2 :
  List.length es1 = List.length cs1 ->
  Stated.comparisons (es1 ++ es2) (cs1 ++ cs2) =
  Stated.comparisons es1 cs1 ++ Stated.comparisons es2 cs2.
Proof.
  intros Hlen. unfold Stated.comparisons.
  now rewrite combine_app, map_app.
Qed.

(** ** The walk over a sequence of entries *)

Section Walk.

Variable this : Rule.t.
Variable kind : Stated.Kind.
Variable expectedColumnStart : Z.

Let callback :=
  eachParam this (Stated.paramType kind) (Stated.namePath kind)
            expectedColumnStart.

Let entries (params : list Param.t) := map (pair kind) params.

Lemma eachParam_run param expectedLineStart node lg cmp :
  Stated.wellFormed (kind, param) = true ->
  callback param expectedLineStart (mkState node lg cmp) =
  Returned
    (Stated.advancingLine param expectedLineStart + 1)
    (mkState node
       (lg ++ Stated.reports this node [(kind, param)]
                [mkPosition expectedLineStart expectedColumnStart])
       (cmp ++ Stated.comparisons [(kind, param)]
                 [mkPosition expectedLineStart expectedColumnStart])).
Proof.
  unfold Stated.wellFormed, callback, eachParam; cbn [fst snd].
  intros WF. apply andb_prop in WF as [Hname Hvalue].
  unfold bind at 1. unfold mismatch at 1.
  cbn [tree logged compared].
  unfold Stated.reports, Stated.comparisons, Stated.actualCoordinate.
  unfold differs. cbn [combine map filter fst snd line column].
  assert (Hadvance :
    forall s,
      bind
        (if isType (Stated.judgedType param) "SubExpression" then
           if negb (line (Loc.start (Param.loc param))
                      =? line (Loc.end_ (Param.loc param)))
           then ret (line (Loc.end_ (Param.loc param)))
           else ret expectedLineStart
         else if isType (Stated.judgedType param) "MustacheStatement" then
           valueEndLine (Param.value param)
         else ret expectedLineStart)
        (fun l => ret (l + 1)) s
      = Returned (Stated.advancingLine param expectedLineStart + 1) s).
  { intros s. unfold Stated.advancingLine, Stated.spansLines.
    destruct (isType (Stated.judgedType param) "SubExpression").
    - destruct (line (Loc.start (Param.loc param))
                  =? line (Loc.end_ (Param.loc param))); reflexivity.
    - destruct (isType (Stated.judgedType param) "MustacheStatement");
        [|reflexivity].
      cbn in Hvalue. destruct (Param.value param); try discriminate.
      reflexivity. }
  fold (Stated.judgedType param).
  destruct (negb (line (Loc.start (Param.loc param)) =? expectedLineStart)
            || negb (column (Loc.start (Param.loc param))
                       =? expectedColumnStart)) eqn:Hd.
  - cbn [map]. unfold Stated.report, Stated.displayName,
      Stated.actualCoordinate; cbn [fst snd].
    destruct (truthy (getProperty param (Stated.namePath kind))) eqn:Ht.
    + unfold bind at 1. unfold bind at 1. unfold ret at 1.
      unfold bind at 1. unfold thisNode at 1. cbn [tree logged compared].
      unfold log at 1. cbn [tree logged compared].
      apply Hadvance.
    + cbn in Hname. destruct (Param.path param) as [path|]; [|discriminate].
      unfold bind at 1. unfold bind at 1. unfold bind at 1.
      cbn [prop]. unfold ret at 1. unfold ret at 1.
      unfold bind at 1. unfold thisNode at 1. cbn [tree logged compared].
      unfold log at 1. cbn [tree logged compared].
      apply Hadvance.
  - cbn [map]. rewrite app_nil_r.
    unfold bind at 1. unfold ret at 1.
    apply Hadvance.
Qed.

Lemma forEach_run params :
  forall expectedLineStart node lg cmp,
    Forall (fun p => Stated.wellFormed (kind, p) = true) params ->
    forEach params callback expectedLineStart (mkState node lg cmp) =
    Returned
      (Stated.lineAfter (entries params) expectedLineStart)
      (mkState node
         (lg ++ Stated.reports this node (entries params)
                  (Stated.expectedCoordinates (entries params)
                     expectedLineStart expectedColumnStart))
         (cmp ++ Stated.comparisons (entries params)
                   (Stated.expectedCoordinates (entries params)
                      expectedLineStart expectedColumnStart))).
Proof.
  induction params as [|param rest IH]; intros L node lg cmp WF.
  - cbn. unfold ret. now rewrite !app_nil_r.
  - inversion WF as [|? ? WFp WFrest]; subst.
    cbn [forEach].
    rewrite (bind_Returned _ _ _ _ _ (eachParam_run param L node lg cmp WFp)).
    rewrite IH by assumption.
    unfold entries. cbn [map Stated.lineAfter].
    rewrite expectedCoordinates_cons.
    rewrite (reports_cons this node (kind, param) (map (pair kind) rest)).
    rewrite (comparisons_cons (kind, param) (map (pair kind) rest)).
    now rewrite <- !app_assoc.
Qed.

End Walk.

(** ** [iterateParams] and [validateParams] in closed form *)

Section ClosedForm.

Variable this : Rule.t.

Lemma iterateParams_named ref kind L C node array lg cmp :
  kind <> Stated.positional ->
  deref ref node = Some array ->
  Forall (fun p => Stated.wellFormed (kind, p) = true) array ->
  iterateParams this ref
    (match kind with
     | Stated.htmlAttribute => "htmlAttribute"
     | _ => "attribute"
     end) L C (mkState node lg cmp) =
  Returned
    (Stated.lineAfter (map (pair kind) array) L)
    (mkState node
       (lg ++ Stated.reports this node (map (pair kind) array)
                (Stated.expectedCoordinates (map (pair kind) array) L C))
       (cmp ++ Stated.comparisons (map (pair kind) array)
                 (Stated.expectedCoordinates (map (pair kind) array) L C))).
Proof.
  intros Hkind Hderef WF.
  unfold iterateParams.
  destruct kind; [congruence| |];
    cbn [String.eqb Ascii.eqb Bool.eqb andb];
    unfold bind at 1; unfold ret at 1; cbn [fst snd];
    unfold bind at 1; unfold thisNode at 1; cbn [tree];
    rewrite Hderef; unfold bind at 1; cbn [prop]; unfold ret at 1.
  - exact (forEach_run this Stated.attribute C array L node lg cmp WF).
  - exact (forEach_run this Stated.htmlAttribute C array L node lg cmp WF).
Qed.

Lemma iterateParams_positional_plain ref L C node path array lg cmp :
  Node.path node = Some path ->
  isSynthetic path = false ->
  deref ref node = Some array ->
  Forall (fun p => Stated.wellFormed (Stated.positional, p) = true) array ->
  iterateParams this ref "positional" L C (mkState node lg cmp) =
  Returned
    (Stated.lineAfter (map (pair Stated.positional) array) L)
    (mkState node
       (lg ++ Stated.reports this node (map (pair Stated.positional) array)
                (Stated.expectedCoordinates
                   (map (pair Stated.positional) array) L C))
       (cmp ++ Stated.comparisons (map (pair Stated.positional) array)
                 (Stated.expectedCoordinates
                    (map (pair Stated.positional) array) L C))).
Proof.
  intros Hpath Hsyn Hderef WF.
  unfold iterateParams.
  cbn [String.eqb Ascii.eqb Bool.eqb andb].
  unfold bind at 1. unfold bind at 1. unfold thisNode at 1. cbn [tree].
  rewrite Hpath. unfold bind at 1. cbn [prop]. unfold ret at 1.
  rewrite Hsyn. unfold ret at 1. cbn [fst snd].
  unfold bind at 1; unfold thisNode at 1; cbn [tree].
  rewrite Hderef; unfold bind at 1; cbn [prop]; unfold ret at 1.
  exact (forEach_run this Stated.positional C array L node lg cmp WF).
Qed.

(** With a synthetic path the walk starts one line earlier, after the
    column correction when the node is a block form. *)
Lemma iterateParams_positional_synthetic ref L C node path lg cmp :
  Node.path node = Some path ->
  isSynthetic path = true ->
  (Stated.isBlock node = true -> Node.decrementFirstParamColumn node <> None) ->
  iterateParams this ref "positional" L C (mkState node lg cmp) =
  bind (prop "params.forEach" (deref ref (Stated.corrected node)))
       (fun array =>
          forEach array (eachParam this "positional param" "original" C)
                  (L - 1))
       (mkState (if Stated.isBlock node then Stated.corrected node else node)
                lg cmp).
Proof.
  intros Hpath Hsyn Hfirst.
  unfold iterateParams.
  cbn [String.eqb Ascii.eqb Bool.eqb andb].
  unfold bind at 1. unfold bind at 1. unfold thisNode at 1. cbn [tree].
  rewrite Hpath. unfold bind at 1. cbn [prop]. unfold ret at 1.
  rewrite Hsyn.
  destruct node as [p ps h pr l | p ps h l | t a c sc l];
    cbn [Node.type String.eqb Ascii.eqb Bool.eqb andb Stated.isBlock
         Stated.corrected] in *.
  - destruct ps as [|first rest]; [now specialize (Hfirst eq_refl)|].
    reflexivity.
  - reflexivity.
  - discriminate.
Qed.

End ClosedForm.

Section ValidateParams.

Variable this : Rule.t.

Let expectedColumnStart (node : Node) : Z :=
  column (Loc.start (Node.loc node))
  + Options.indentation (Rule.config this).

(** The positional and the named walk, one after the other, as [validateParams]
    runs them on an invocation. *)
Lemma invocation_walks node params hash first lg cmp :
  Node.params node = Some params ->
  Node.hash node = Some hash ->
  Stated.sequence node =
    map (pair Stated.positional) params
      ++ map (pair Stated.attribute) (Hash.pairs hash) ->
  Forall (fun e => Stated.wellFormed e = true) (Stated.sequence node) ->
  bind
    (forEach params
       (eachParam this "positional param" "original" (expectedColumnStart node))
       first)
    (fun expectedLineStart =>
       iterateParams this node_hash_pairs "attribute" expectedLineStart
                     (expectedColumnStart node))
    (mkState node lg cmp) =
  Returned
    (Stated.lineAfter (Stated.sequence node) first)
    (mkState node
       (lg ++ Stated.reports this node (Stated.sequence node)
                (Stated.expectedCoordinates (Stated.sequence node) first
                   (expectedColumnStart node)))
       (cmp ++ Stated.comparisons (Stated.sequence node)
                 (Stated.expectedCoordinates (Stated.sequence node) first
                    (expectedColumnStart node)))).
Proof.
  intros Hparams Hhash Hseq WF. rewrite Hseq in *.
  apply Forall_app in WF as [WFp WFn].
  rewrite Forall_map in WFp, WFn.
  rewrite (bind_Returned _ _ _ _ _
             (forEach_run this Stated.positional (expectedColumnStart node)
                params first node lg cmp WFp)).
  rewrite (iterateParams_named this node_hash_pairs Stated.attribute
             _ _ node (Hash.pairs hash)); try assumption.
  - rewrite lineAfter_app, expectedCoordinates_app.
    rewrite reports_app, comparisons_app
      by now rewrite expectedCoordinates_length.
    now rewrite <- !app_assoc.
  - discriminate.
  - cbn [deref]. now rewrite Hhash.
Qed.

Lemma validateParams_run node lg cmp :
  let node' :=
    if Stated.synthetic node && Stated.isBlock node
    then Stated.corrected node else node in
  let first :=
    if Stated.synthetic node then line (Loc.start (Node.loc node))
    else line (Loc.start (Node.loc node)) + 1 in
  let expected :=
    Stated.expectedCoordinates (Stated.sequence node') first
      (expectedColumnStart node) in
  (Stated.synthetic node && Stated.isBlock node = true ->
   Node.params node <> Some []) ->
  Forall (fun e => Stated.wellFormed e = true) (Stated.sequence node') ->
  validateParams this (mkState node lg cmp) =
  Returned
    (Stated.lineAfter (Stated.sequence node') first)
    (mkState node'
       (lg ++ Stated.reports this node' (Stated.sequence node') expected)
       (cmp ++ Stated.comparisons (Stated.sequence node') expected)).
Proof.
  intros node' first expected Hfirst WF.
  unfold validateParams.
  unfold bind at 1. unfold thisNode at 1. cbn [tree].
  fold (expectedColumnStart node).
  destruct node as [p ps h pr l | p ps h l | t a c sc l].
  - (* block form *)
    cbn [Node.type String.eqb Ascii.eqb Bool.eqb andb].
    cbn [Stated.synthetic Stated.isBlock] in *.
    destruct (isSynthetic p) eqn:Hsyn; cbn [andb] in *.
    + unfold bind at 1.
      rewrite (iterateParams_positional_synthetic this _ _ _ _ p)
        by first [ reflexivity | assumption
                 | intros _; destruct ps;
                   [now specialize (Hfirst eq_refl)|discriminate] ].
      cbn [Stated.isBlock].
      destruct ps as [|param rest]; [now specialize (Hfirst eq_refl)|].
      unfold bind at 1.
      cbn [deref prop Stated.corrected Node.params]. unfold ret at 1.
      replace (_ + 1 - 1) with first by (subst first; cbn; lia).
      exact (invocation_walks
               (Stated.corrected (BlockStatement p (param :: rest) h pr l))
               _ h first lg cmp eq_refl eq_refl eq_refl WF).
    + unfold bind at 1.
      rewrite (iterateParams_positional_plain this _ _ _ _ p ps);
        try reflexivity; try assumption.
      * subst node'.
        set (node := BlockStatement p ps h pr l) in *.
        pose proof (invocation_walks node ps h first lg cmp eq_refl eq_refl
                      eq_refl WF) as Hwalk.
        rewrite (bind_Returned _ _ _ _ _
                   (forEach_run this Stated.positional
                      (expectedColumnStart node) ps first node lg cmp
                      (proj1 (Forall_map _ _ _)
                         (proj1 (proj1 (Forall_app _ _ _) WF))))) in Hwalk.
        exact Hwalk.
      * exact (proj1 (Forall_map _ _ _) (proj1 (proj1 (Forall_app _ _ _) WF))).
  - (* inline form *)
    cbn [Node.type String.eqb Ascii.eqb Bool.eqb andb].
    cbn [Stated.synthetic Stated.isBlock] in *.
    subst node'. rewrite andb_false_r in *.
    destruct (isSynthetic p) eqn:Hsyn.
    + unfold bind at 1.
      rewrite (iterateParams_positional_synthetic this _ _ _ _ p)
        by first [ reflexivity | assumption | discriminate ].
      cbn [Stated.isBlock Stated.corrected].
      unfold bind at 1. cbn [deref prop Node.params]. unfold ret at 1.
      replace (_ + 1 - 1) with first by (subst first; cbn; lia).
      exact (invocation_walks (MustacheStatement p ps h l) ps h first lg cmp
               eq_refl eq_refl eq_refl WF).
    + set (node := MustacheStatement p ps h l) in *.
      unfold bind at 1.
      rewrite (iterateParams_positional_plain this _ _ _ _ p ps);
        try reflexivity; try assumption.
      * pose proof (invocation_walks node ps h first lg cmp eq_refl eq_refl
                      eq_refl WF) as Hwalk.
        rewrite (bind_Returned _ _ _ _ _
                   (forEach_run this Stated.positional
                      (expectedColumnStart node) ps first node lg cmp
                      (proj1 (Forall_map _ _ _)
                         (proj1 (proj1 (Forall_app _ _ _) WF))))) in Hwalk.
        exact Hwalk.
      * exact (proj1 (Forall_map _ _ _) (proj1 (proj1 (Forall_app _ _ _) WF))).
  - (* markup element *)
    cbn [Node.type String.eqb Ascii.eqb Bool.eqb andb].
    cbn [Stated.synthetic Stated.isBlock andb] in *. subst node'.
    cbn [Stated.sequence] in *.
    apply (iterateParams_named this node_attributes Stated.htmlAttribute).
    + discriminate.
    + reflexivity.
    + now rewrite Forall_map in WF.
Qed.

End ValidateParams.

(** ** Operations that leave the visited node as it is *)

Lemma keepsTree_ret {A} (a : A) : keepsTree (ret a).
Proof. now intros s. Qed.

Lemma keepsTree_throw {A} e : keepsTree (@throw A e).
Proof. now intros s. Qed.

Lemma keepsTree_prop {A} reading (o : option A) : keepsTree (prop reading o).
Proof. now destruct o; intros s. Qed.

Lemma keepsTree_thisNode : keepsTree thisNode.
Proof. now intros s. Qed.

Lemma keepsTree_log d : keepsTree (log d).
Proof. now intros s. Qed.

Lemma keepsTree_mismatch e a : keepsTree (mismatch e a).
Proof. now intros s. Qed.

(** After [m], whatever [k] does keeps the node that [m] left. *)
Lemma bind_tree {A B} (m : M A) (k : A -> M B) s :
  (forall a, keepsTree (k a)) ->
  tree (finalState (bind m k s)) = tree (finalState (m s)).
Proof.
  intros Hk. unfold bind. destruct (m s) as [a s'|e s']; [|reflexivity].
  apply Hk.
Qed.

Lemma keepsTree_bind {A B} (m : M A) (k : A -> M B) :
  keepsTree m -> (forall a, keepsTree (k a)) -> keepsTree (bind m k).
Proof. intros Hm Hk s. now rewrite bind_tree, Hm. Qed.

Create HintDb frame.
#[export] Hint Resolve keepsTree_ret keepsTree_throw keepsTree_prop
  keepsTree_thisNode keepsTree_log keepsTree_mismatch : frame.

Ltac frame :=
  repeat first
    [ apply keepsTree_bind; [|intros ?]
    | match goal with
      | |- keepsTree (if ?b then _ else _) => destruct b
      | |- keepsTree (match ?o with Some _ => _ | None => _ end) => destruct o
      end
    | solve [auto with frame] ].

Lemma keepsTree_valueEndLine v : keepsTree (valueEndLine v).
Proof. destruct v; cbn; auto with frame. Qed.

Lemma keepsTree_getWhiteSpaceLength statement :
  keepsTree (getWhiteSpaceLength statement).
Proof. unfold getWhiteSpaceLength. frame. Qed.

#[export] Hint Resolve keepsTree_valueEndLine keepsTree_getWhiteSpaceLength
  : frame.

Lemma keepsTree_eachParam this paramType namePath column param expectedLine :
  keepsTree (eachParam this paramType namePath column param expectedLine).
Proof. unfold eachParam. frame. Qed.

Lemma keepsTree_forEach params : forall callback expectedLine,
  (forall param l, keepsTree (callback param l)) ->
  keepsTree (forEach params callback expectedLine).
Proof.
  induction params as [|param rest IH]; intros callback expectedLine Hcb;
    cbn [forEach].
  - auto with frame.
  - apply keepsTree_bind; [apply Hcb|]. intros l. now apply IH.
Qed.

Lemma keepsTree_walk this ref paramType namePath column expectedLine :
  keepsTree
    (node <- thisNode ;;
     array <- prop "params.forEach" (deref ref node) ;;
     forEach array (eachParam this paramType namePath column) expectedLine).
Proof.
  frame. apply keepsTree_forEach. intros. apply keepsTree_eachParam.
Qed.

Lemma keepsTree_validateCloseBrace this expectedStartLine :
  keepsTree (validateCloseBrace this expectedStartLine).
Proof. unfold validateCloseBrace. frame. Qed.

Lemma keepsTree_validateClosingTag this expectedStartLine :
  keepsTree (validateClosingTag this expectedStartLine).
Proof. unfold validateClosingTag. frame. Qed.

Lemma keepsTree_getBlockParamStartLoc this :
  keepsTree (getBlockParamStartLoc this).
Proof.
  unfold getBlockParamStartLoc.
  apply keepsTree_bind; [auto with frame|].
  intros [p ps h pr l | p ps h l | t a c sc l]; frame.
Qed.

Lemma keepsTree_validateBlockParams this :
  keepsTree (validateBlockParams this).
Proof.
  unfold validateBlockParams.
  apply keepsTree_bind; [apply keepsTree_getBlockParamStartLoc|].
  intros location. frame.
Qed.

(** What [iterateParams] leaves in place of the visited node. *)
Lemma iterateParams_tree this ref type L C s :
  tree (finalState (iterateParams this ref type L C s)) =
  if (type === "positional") && Stated.synthetic (tree s)
     && Stated.isBlock (tree s)
  then Stated.corrected (tree s) else tree s.
Proof.
  unfold iterateParams.
  destruct (type === "positional") eqn:Htype; cbn [andb].
  - destruct s as [node lg cmp]; cbn [tree].
    destruct node as [p ps h pr l | p ps h l | t a c sc l];
      cbn [Stated.synthetic Stated.isBlock Stated.corrected andb].
    + (* block form *)
      destruct (isSynthetic p) eqn:Hsyn; cbn [andb].
      * destruct ps as [|first rest].
        -- unfold bind at 1. unfold bind at 1. unfold thisNode at 1.
           cbn [tree Node.path prop]. unfold bind at 1. unfold ret at 1.
           rewrite Hsyn. reflexivity.
        -- unfold bind at 1. unfold bind at 1. unfold thisNode at 1.
           cbn [tree Node.path prop]. unfold bind at 1. unfold ret at 1.
           rewrite Hsyn.
           cbn [Node.type String.eqb Ascii.eqb Bool.eqb andb
                Node.decrementFirstParamColumn prop].
           unfold bind at 1. unfold bind at 1. unfold ret at 1.
           unfold setNode at 1. cbn [tree logged compared].
           unfold ret at 1. cbn [fst snd].
           now rewrite keepsTree_walk.
      * unfold bind at 1. unfold bind at 1. unfold thisNode at 1.
        cbn [tree Node.path prop]. unfold bind at 1. unfold ret at 1.
        rewrite Hsyn. unfold ret at 1. cbn [fst snd].
        now rewrite keepsTree_walk.
    + (* inline form *)
      rewrite andb_false_r.
      unfold bind at 1. unfold bind at 1. unfold thisNode at 1.
      cbn [tree Node.path prop]. unfold bind at 1. unfold ret at 1.
      destruct (isSynthetic p);
        cbn [Node.type String.eqb Ascii.eqb Bool.eqb andb].
      * unfold bind at 1. unfold ret at 1. unfold ret at 1. cbn [fst snd].
        now rewrite keepsTree_walk.
      * unfold ret at 1. cbn [fst snd]. now rewrite keepsTree_walk.
    + (* markup element: [node.path] is undefined *)
      reflexivity.
  - destruct (type === "htmlAttribute").
    + unfold bind at 1. unfold ret at 1. cbn [fst snd].
      now rewrite keepsTree_walk.
    + unfold bind at 1. unfold ret at 1. cbn [fst snd].
      now rewrite keepsTree_walk.
Qed.

Lemma validateParams_tree this s :
  tree (finalState (validateParams this s)) =
  if Stated.synthetic (tree s) && Stated.isBlock (tree s)
  then Stated.corrected (tree s) else tree s.
Proof.
  unfold validateParams.
  unfold bind at 1. unfold thisNode at 1.
  destruct (Node.type (tree s) === "ElementNode") eqn:Htype.
  - rewrite iterateParams_tree.
    destruct (tree s); try discriminate. reflexivity.
  - rewrite bind_tree.
    + rewrite iterateParams_tree. reflexivity.
    + intros l s'. rewrite iterateParams_tree. reflexivity.
Qed.

(** * The claims *)

(** C4.  [canApplyRule] measures the opening from the node's start to
    [end], where [end] is the body start for a block form, the first
    child's start for a markup element with children, and the node's own
    end otherwise.  When [end] is on the start line the rule is applicable
    if and only if [end.column - start.column] is strictly greater than
    [maxLength]: exactly [maxLength] is not applicable, one more is.  When
    the opening spans several lines the rule is always applicable. *)
Theorem canApplyRule_gate (node : Node) (type : string) (config : Options.t) :
  let start := Loc.start (Node.loc node) in
  let end_ := Stated.openingEnd node in
  let width := column end_ - column start in
  getEndLocationForOpen node = end_
  /\ (line end_ = line start ->
      (canApplyRule node type config = true
       <-> width > Options.maxLength config))
  /\ (line end_ = line start -> width = Options.maxLength config ->
      canApplyRule node type config = false)
  /\ (line end_ = line start -> width = Options.maxLength config + 1 ->
      canApplyRule node type config = true)
  /\ (line end_ <> line start -> canApplyRule node type config = true).
Proof.
  intros start end_ width.
  assert (Hend : getEndLocationForOpen node = end_).
  { subst end_. destruct node as [p ps h pr l | p ps h l | t a [|c cs] sc l];
      reflexivity. }
  unfold canApplyRule. rewrite Hend. fold start. fold width.
  split; [reflexivity|]. split; [|split; [|split]].
  - intros Hline. rewrite (proj2 (Z.eqb_eq _ _) (eq_sym Hline)).
    rewrite Z.ltb_lt. lia.
  - intros Hline Hw. rewrite (proj2 (Z.eqb_eq _ _) (eq_sym Hline)).
    apply Z.ltb_ge. lia.
  - intros Hline Hw. rewrite (proj2 (Z.eqb_eq _ _) (eq_sym Hline)).
    apply Z.ltb_lt. lia.
  - intros Hline.
    destruct (line start =? line end_) eqn:E; [|reflexivity].
    apply Z.eqb_eq in E. congruence.
Qed.

(** The one-line sample is 15 columns wide: not applicable under the
    default 80, applicable under a maximum of 14. *)
Lemma canApplyRule_gate_witness :
  canApplyRule Sample.short "MustacheStatement" Sample.defaults = false
  /\ canApplyRule Sample.short "MustacheStatement"
                  (Options.make 14 2 None) = true
  /\ canApplyRule Sample.contact "MustacheStatement" Sample.defaults = true.
Proof.
  split; [|split].
  - destruct (canApplyRule Sample.short "MustacheStatement" Sample.defaults)
      eqn:E; [|reflexivity].
    apply (proj1 (proj2 (canApplyRule_gate Sample.short "MustacheStatement"
                           Sample.defaults))) in E;
      [cbn in E; lia | reflexivity].
  - apply (proj1 (proj2 (proj2 (proj2
             (canApplyRule_gate Sample.short "MustacheStatement"
                (Options.make 14 2 None)))))); reflexivity.
  - apply (proj2 (proj2 (proj2 (proj2
             (canApplyRule_gate Sample.contact "MustacheStatement"
                Sample.defaults))))).
    cbn. lia.
Defined.

Lemma lastOf_nth_error {A} (l : list A) :
  lastOf l = nth_error l (List.length l - 1).
Proof.
  unfold lastOf, index. destruct l as [|a l].
  - reflexivity.
  - replace (Z.of_nat (List.length (a :: l)) - 1 <? 0) with false
      by (symmetry; apply Z.ltb_ge; cbn [List.length]; lia).
    f_equal. cbn [List.length]. lia.
Qed.

(** C1 (amended).  For a block invocation that has arguments,
    [getBlockParamStartLoc] takes the anchor [tail] to be the end of the
    named-argument group whenever named arguments exist, and only otherwise
    the end of the last positional argument; the expected block-parameter
    coordinate is one line below [tail], at the invocation's start column.
    The function returns that expectation without touching the state,
    unless it has to measure the indentation of a body line that the source
    does not have. *)
Theorem getBlockParamStartLoc_anchor
    (this : Rule.t) (path : Path.t) (params : list Param.t) (hash : Hash.t)
    (program : Program.t) (loc : Loc.t) (lg : list Diagnostic.t)
    (cmp : list Comparison.t) (tail : Position) :
  let s := mkState (BlockStatement path params hash program loc) lg cmp in
  let expected := mkPosition (line tail + 1) (column (Loc.start loc)) in
  Stated.tail params hash = Some tail ->
  (exists actual,
      getBlockParamStartLoc this s
      = Returned (Expectation.make actual expected) s)
  \/ (index (Rule.source this) (line (Loc.start (Program.loc program)) - 1)
      = None
      /\ getBlockParamStartLoc this s
         = Thrown (TypeError "statement.match") s).
Proof.
  intros s expected Htail.
  remember (getBlockParamStartLoc this s) as outcome eqn:Hrun.
  unfold getBlockParamStartLoc in Hrun. unfold bind at 1 in Hrun.
  unfold thisNode at 1 in Hrun. cbn [tree s] in Hrun.
  assert (Hanchor :
    (if nonEmpty (Hash.pairs hash) then Some (Loc.end_ (Hash.loc hash))
     else if nonEmpty params
          then option_map (fun p => Loc.end_ (Param.loc p)) (lastOf params)
          else None) = Some tail
    /\ (Z.of_nat (List.length params) =? 0)
       && (Z.of_nat (List.length (Hash.pairs hash)) =? 0) = false).
  { unfold Stated.tail in Htail. rewrite lastOf_nth_error.
    destruct (Hash.pairs hash) as [|pair pairs].
    - destruct params as [|param rest]; [discriminate|].
      split; [exact Htail | reflexivity].
    - split; [exact Htail | apply andb_false_r]. }
  destruct Hanchor as [Hanchor Hargs]. rewrite Hargs in Hrun.
  rewrite Hanchor in Hrun. unfold bind at 1 in Hrun. cbn [prop] in Hrun.
  unfold ret at 1 in Hrun. fold expected in Hrun.
  destruct (line tail =? line (Loc.start (Program.loc program))).
  { left. now exists (Some tail). }
  destruct (line tail <? line (Loc.start (Program.loc program))).
  2: { left. now exists None. }
  destruct (negb _).
  { left. now exists (Some tail). }
  unfold getWhiteSpaceLength in Hrun.
  destruct (index (Rule.source this)
              (line (Loc.start (Program.loc program)) - 1)) as [text|].
  - left. subst outcome. now eexists.
  - right. subst outcome. split; reflexivity.
Qed.

(** On the laid-out sample the anchor is the end of [age=age], line 3, and
    the clause is expected at line 4, column 0. *)
Lemma getBlockParamStartLoc_anchor_witness :
  (exists actual,
      getBlockParamStartLoc (Sample.rule Sample.employeeLines)
                            (Sample.fresh Sample.employee)
      = Returned (Expectation.make actual (mkPosition 4 0))
                 (Sample.fresh Sample.employee))
  \/ (index Sample.employeeLines (4 - 1) = None
      /\ getBlockParamStartLoc (Sample.rule Sample.employeeLines)
                               (Sample.fresh Sample.employee)
         = Thrown (TypeError "statement.match")
                  (Sample.fresh Sample.employee)).
Proof.
  exact (getBlockParamStartLoc_anchor
           (Sample.rule Sample.employeeLines) Sample.employeePath
           Sample.employeeParams Sample.employeeHash Sample.employeeBody
           (Sample.at_ 1 0 6 21) [] [] (mkPosition 3 9) eq_refl).
Defined.

(** C1, refuted as worded.  The sample has a positional argument ending on
    line 2 and a named-argument group ending on line 3.  With the last
    positional argument as anchor the clause would be expected on line 3;
    the code expects it on line 4, one below the named-argument group. *)
Lemma getBlockParamStartLoc_positional_first_fails :
  Stated.tailPositionalFirst Sample.employeeParams Sample.employeeHash
  = Some (mkPosition 2 11)
  /\ getBlockParamStartLoc (Sample.rule Sample.employeeLines)
                           (Sample.fresh Sample.employee)
     = Returned (Expectation.make (Some (mkPosition 4 0)) (mkPosition 4 0))
                (Sample.fresh Sample.employee)
  /\ mkPosition 4 0
     <> mkPosition (2 + 1) (column (Loc.start (Node.loc Sample.employee))).
Proof.
  split; [reflexivity|]. split; [reflexivity|]. discriminate.
Qed.

(** C2 (amended).  For an invocation whose path is not marked synthetic, or
    a markup element, and a validated sequence (positional then named
    arguments, or attributes) whose entries have a display name:
    [validateParams] compares every entry with an expected coordinate whose
    column is [node.start.column + indentation]; the expected line of the
    first entry is [node.start.line + 1] and each later entry is expected
    one line below the previous entry's advancing line, which is the
    previous entry's own end line when it is a sub-expression spanning
    several lines, its value's end line when the value is an inline
    invocation, and its expected line otherwise.  An entry is reported
    exactly when its actual start differs from the expected coordinate in
    line or in column, and the line expected after the last entry is
    returned. *)
Theorem validateParams_expected_coordinates
    (this : Rule.t) (node : Node) (lg : list Diagnostic.t)
    (cmp : list Comparison.t) :
  let first := line (Loc.start (Node.loc node)) + 1 in
  let column_ :=
    column (Loc.start (Node.loc node))
    + Options.indentation (Rule.config this) in
  let entries := Stated.sequence node in
  let expected := Stated.expectedCoordinates entries first column_ in
  Stated.synthetic node = false ->
  Forall (fun e => Stated.wellFormed e = true) entries ->
  validateParams this (mkState node lg cmp)
  = Returned (Stated.lineAfter entries first)
             (mkState node
                (lg ++ Stated.reports this node entries expected)
                (cmp ++ Stated.comparisons entries expected))
  /\ List.length expected = List.length entries
  /\ Forall (fun c => column c = column_) expected.
Proof.
  intros first column_ entries expected Hsyn WF.
  split; [|split].
  - pose proof (validateParams_run this node lg cmp) as Hrun.
    rewrite Hsyn in Hrun. cbn [andb] in Hrun.
    apply Hrun; [discriminate | exact WF].
  - apply expectedCoordinates_length.
  - unfold expected, Stated.expectedCoordinates.
    apply Forall_map. apply Forall_forall. reflexivity.
Qed.

(** The sample with the named argument indented by four columns: one
    report, for [firstName], found at L3:C4 and expected at L3:C2. *)
Lemma validateParams_expected_coordinates_witness :
  validateParams (Sample.rule Sample.contactLines)
                 (Sample.fresh Sample.contact)
  = Returned 4
      (mkState Sample.contact
         [ Diagnostic.make
             "Incorrect indentation of attribute 'firstName' beginning at L3:C4. Expected 'firstName' to be at L3:C2."
             3 4
             (sourceForLoc Sample.contactLines
                (Span.ofLoc (Node.loc Sample.contact))) ]
         [ Comparison.make (mkPosition 2 2) (mkPosition 2 2);
           Comparison.make (mkPosition 3 2) (mkPosition 3 4) ]).
Proof.
  refine (proj1 (validateParams_expected_coordinates
                   (Sample.rule Sample.contactLines) Sample.contact [] []
                   eq_refl _)).
  repeat constructor.
Defined.

(** C2, refuted as worded.  In the rewritten dotted invocation the first
    entry starts at L1:C2.  Were it expected on [node.start.line + 1], at
    L2:C2, it would have to be reported; the code compares it with L1:C2
    and reports nothing. *)
Lemma validateParams_first_line_fails :
  Stated.sequence Sample.dotted <> []
  /\ Stated.reports (Sample.rule Sample.dottedLines) Sample.dotted
       (Stated.sequence Sample.dotted)
       (Stated.expectedCoordinates (Stated.sequence Sample.dotted)
          (line (Loc.start (Node.loc Sample.dotted)) + 1)
          (column (Loc.start (Node.loc Sample.dotted)) + 2))
     <> []
  /\ validateParams (Sample.rule Sample.dottedLines)
                    (Sample.fresh Sample.dotted)
     = Returned 3
         (mkState Sample.dotted []
            [ Comparison.make (mkPosition 1 2) (mkPosition 1 2);
              Comparison.make (mkPosition 2 2) (mkPosition 2 2) ]).
Proof.
  split; [discriminate|]. split; [discriminate|]. reflexivity.
Qed.

(** C5.  For every node whose parameter/attribute sequences are all empty,
    [validateParams] performs zero coordinate comparisons, emits no
    diagnostic, leaves the node as it is and returns the unmodified baseline
    [node.start.line + 1].  The nodes are those the rule can be given: a
    path marked synthetic comes with a first positional argument, which the
    rule itself takes for granted when it reads [node.params[0]]; so a node
    without arguments has no synthetic path. *)
Theorem validateParams_empty
    (this : Rule.t) (node : Node) (lg : list Diagnostic.t)
    (cmp : list Comparison.t) :
  Stated.firstPositionalPresent node = true ->
  Stated.sequence node = [] ->
  validateParams this (mkState node lg cmp)
  = Returned (line (Loc.start (Node.loc node)) + 1) (mkState node lg cmp).
Proof.
  intros Hfirst Hempty.
  assert (Hsyn : Stated.synthetic node = false).
  { unfold Stated.firstPositionalPresent in Hfirst.
    destruct node as [p ps h pr l | p ps h l | t a c sc l];
      [| |reflexivity];
      cbn [Stated.sequence] in Hempty;
      apply app_eq_nil in Hempty as [Hparams _];
      apply map_eq_nil in Hparams; subst ps;
      cbn [Node.params] in Hfirst; rewrite orb_false_r in Hfirst;
      now apply negb_true_iff in Hfirst. }
  pose proof (validateParams_run this node lg cmp) as Hrun.
  rewrite Hsyn in Hrun. cbn [andb] in Hrun. rewrite Hempty in Hrun.
  cbn in Hrun. rewrite !app_nil_r in Hrun.
  apply Hrun; [discriminate | constructor].
Qed.

(** An inline form without arguments that starts on line 1: no comparison,
    no diagnostic, and line 2 is returned. *)
Lemma validateParams_empty_witness :
  validateParams (Sample.rule []) (Sample.fresh Layouts.bare)
  = Returned 2 (Sample.fresh Layouts.bare).
Proof.
  exact (validateParams_empty (Sample.rule []) Layouts.bare [] []
           eq_refl eq_refl).
Defined.



(** C7.  When the applicability gate returns [false] for the visited node,
    the visit returns at once with the state it found: no validator runs,
    no coordinate is compared, nothing is logged and the node is not
    touched. *)
Theorem gate_closed_no_diagnostic (this : Rule.t) (s : RuleState) :
  canApplyRule (tree s) (Node.type (tree s)) (Rule.config this) = false ->
  exists result, visitor this s = Returned result s.
Proof.
  intros Hgate.
  unfold visitor. unfold bind at 1. unfold thisNode at 1.
  destruct (tree s) as [p ps h pr l | p ps h l | t a c sc l] eqn:Hnode.
  - unfold visitor_BlockStatement. unfold bind at 1. unfold thisNode at 1.
    rewrite Hnode, Hgate. now eexists.
  - unfold visitor_MustacheStatement. unfold bind at 1. unfold thisNode at 1.
    rewrite Hnode, Hgate. now eexists.
  - unfold visitor_ElementNode.
    destruct (isEnabled _); [|now eexists].
    unfold bind at 1. unfold thisNode at 1. rewrite Hnode, Hgate.
    now eexists.
Qed.

(** The one-line sample under the default options: the gate is closed and
    the visit logs nothing. *)
Lemma gate_closed_no_diagnostic_witness :
  exists result,
    visitor (Sample.rule Sample.shortLines) (Sample.fresh Sample.short)
    = Returned result (Sample.fresh Sample.short).
Proof.
  exact (gate_closed_no_diagnostic (Sample.rule Sample.shortLines)
           (Sample.fresh Sample.short) eq_refl).
Defined.

(** C9.  [validateCloseBrace] is idempotent.  On a given node, options and
    expected line it logs the same diagnostics [ds], none or a single one,
    from whatever log it starts; run twice in succession it logs [ds]
    twice, and the node is the same before, between and after. *)
Theorem validateCloseBrace_idempotent
    (this : Rule.t) (expectedStartLine : Z) (s : RuleState) :
  exists ds c,
    (ds = [] \/ exists d, ds = [d])
    /\ (forall lg cmp,
           validateCloseBrace this expectedStartLine (mkState (tree s) lg cmp)
           = Returned tt (mkState (tree s) (lg ++ ds) (cmp ++ [c])))
    /\ (validateCloseBrace this expectedStartLine ;;;
        validateCloseBrace this expectedStartLine) s
       = Returned tt (mkState (tree s) ((logged s ++ ds) ++ ds)
                              ((compared s ++ [c]) ++ [c])).
Proof.
  assert (Hrun : exists ds c,
             (ds = [] \/ exists d, ds = [d])
             /\ forall lg cmp,
                 validateCloseBrace this expectedStartLine
                   (mkState (tree s) lg cmp)
                 = Returned tt (mkState (tree s) (lg ++ ds) (cmp ++ [c]))).
  { unfold validateCloseBrace. unfold bind at 1. unfold thisNode at 1.
    cbn [tree]. unfold bind at 1. unfold mismatch at 1.
    cbn [tree logged compared].
    destruct (differs _ _).
    - eexists [_], _. split; [right; now eexists|]. intros lg cmp.
      reflexivity.
    - exists [], (Comparison.make
                    (mkPosition expectedStartLine
                       (column (Loc.start (Node.loc (tree s)))))
                    (mkPosition
                       (line (getEndLocationForOpen (tree s)))
                       (column (getEndLocationForOpen (tree s))
                        - (if (Node.type (tree s) === "ElementNode")
                              && negb (Node.selfClosing (tree s))
                           then 1 else 2)))).
      split; [now left|]. intros lg cmp. now rewrite app_nil_r. }
  destruct Hrun as (ds & c & Hds & Hrun).
  exists ds, c. split; [exact Hds|]. split; [exact Hrun|].
  unfold bind. rewrite <- (state_eta s) at 1. rewrite Hrun. apply Hrun.
Qed.

(** C10.  A mapping without the key ['process-elements'] is normalized to
    options that carry no [processElements] at all, and under such options
    the [ElementNode] callback returns at once, whatever the element and
    whatever the other keys: no gate, no validator, no diagnostic.  Element
    processing is on only for the configuration [true] and for a mapping
    that gives ['process-elements'] explicitly. *)
Theorem elements_skipped_without_process_elements :
  (forall createErrorMessage ruleName o,
      ConfigObject.process_elements o = None ->
      exists options,
        parseConfig createErrorMessage ruleName (CObject o)
        = inr (Enabled options)
        /\ Options.processElements options = None
        /\ forall source sourceForNode s,
            let this := Rule.make options source sourceForNode in
            visitor_ElementNode this s = Returned None s
            /\ (Node.type (tree s) = "ElementNode" ->
                visitor this s = Returned None s))
  /\ (forall createErrorMessage ruleName config options,
         parseConfig createErrorMessage ruleName config
         = inr (Enabled options) ->
         isEnabled (Options.processElements options) = true ->
         config = CBoolean true
         \/ exists o, config = CObject o
                      /\ ConfigObject.process_elements o = Some true).
Proof.
  split.
  - intros cem ruleName o Habsent.
    eexists. split; [reflexivity|]. rewrite Habsent.
    split; [reflexivity|]. intros source sourceForNode s this.
    split; [reflexivity|].
    intros Htype. unfold visitor. unfold bind at 1. unfold thisNode at 1.
    destruct (tree s); try discriminate. reflexivity.
  - intros cem ruleName config options Hparse Hon.
    destruct config as [ | |[|]|n|str| | |m| |o]; cbn in Hparse;
      try discriminate; try (destruct (cem _ _ _); discriminate).
    + now left.
    + injection Hparse as <-. discriminate.
    + right. exists o. split; [reflexivity|].
      injection Hparse as <-. cbn in Hon.
      destruct (ConfigObject.process_elements o) as [[|]|];
        try discriminate.
      reflexivity.
Qed.

(** A mapping that only sets the indentation: elements are skipped, the
    misplaced attribute of the sample included. *)
Lemma elements_skipped_without_process_elements_witness :
  exists options,
    parseConfig (fun _ _ _ => inr EmptyString) "attribute-indentation"
                (CObject (ConfigObject.make None (Some 4) None))
    = inr (Enabled options)
    /\ Options.processElements options = None
    /\ forall source sourceForNode s,
        let this := Rule.make options source sourceForNode in
        visitor_ElementNode this s = Returned None s
        /\ (Node.type (tree s) = "ElementNode" ->
            visitor this s = Returned None s).
Proof.
  exact (proj1 elements_skipped_without_process_elements
           (fun _ _ _ => inr EmptyString) "attribute-indentation"
           (ConfigObject.make None (Some 4) None) eq_refl).
Defined.

(** ** Where the rule throws *)

(** What [parseConfig] does on each shape but [null]: the options of
    [true], the disabled result of [false] and of an absent value, the
    defaults overridden by the keys of a mapping, the bare defaults for an
    array, and, for every value with another [typeof], the error made of
    the usage text (or what the helper that builds it throws). *)
Lemma parseConfig_shapes createErrorMessage ruleName :
  let parse := parseConfig createErrorMessage ruleName in
  parse (CBoolean true) = inr (Enabled (Options.make 80 2 (Some true)))
  /\ parse (CBoolean false) = inr Disabled
  /\ parse CUndefined = inr Disabled
  /\ (forall o,
         parse (CObject o)
         = inr (Enabled
                  (Options.make
                     (match ConfigObject.open_invocation_max_len o with
                      | Some n => n
                      | None => 80
                      end)
                     (match ConfigObject.indentation o with
                      | Some m => m
                      | None => 2
                      end)
                     (ConfigObject.process_elements o))))
  /\ parse CArray = inr (Enabled (Options.make 80 2 None))
  /\ (forall config,
         typeof config <> "boolean" -> typeof config <> "object" ->
         typeof config <> "undefined" ->
         parse config
         = match createErrorMessage ruleName usageLines config with
           | inl thrown => inl thrown
           | inr errorMessage => inl (Error errorMessage)
           end).
Proof.
  cbn zeta. repeat split; try reflexivity.
  intros config Hb Ho Hu.
  destruct config; cbn [typeof] in *; try reflexivity; congruence.
Qed.

(** C6 at the failing input.  [typeof null] is ["object"], so [null] enters
    the mapping branch, and ['open-invocation-max-len' in null] throws a
    [TypeError]: not the error that carries the usage text. *)
Theorem parseConfig_null_TypeError createErrorMessage ruleName :
  typeof CNull = "object"
  /\ (exists reading,
         parseConfig createErrorMessage ruleName CNull
         = inl (TypeError reading))
  /\ (forall errorMessage,
         parseConfig createErrorMessage ruleName CNull
         <> inl (Error errorMessage)).
Proof.
  split; [reflexivity|]. split; [now eexists|]. discriminate.
Qed.

(** C3 at the failing input.  The first argument of the sample is the number
    zero, on the opening line while line 2 is expected.  The mismatch is
    found, the display name is asked for, [param.original] is falsy and
    [param.path] is [undefined]: the visit throws before anything is
    logged. *)
Theorem visit_falsy_literal_throws :
  canApplyRule Sample.zero "MustacheStatement" Sample.defaults = true
  /\ visit (Sample.rule Sample.zeroLines) Sample.zero
     = Thrown (TypeError "param.path.original")
              (mkState Sample.zero []
                 [ Comparison.make (mkPosition 2 2) (mkPosition 1 10) ]).
Proof. split; reflexivity. Qed.

(** A block form whose body starts above the end of its arguments leaves
    [actual] undefined, and [validateBlockParams] throws on [actual.line]. *)
Lemma visit_body_above_arguments_throws :
  visit (Sample.rule Sample.hollowLines) Sample.hollow
  = Thrown (TypeError "actual.line")
           (mkState Sample.hollow []
              [ Comparison.make (mkPosition 3 4) (mkPosition 3 4) ]).
Proof. reflexivity. Qed.

(** A block form with a synthetic path and no positional argument throws on
    [node.params[0].loc]. *)
Lemma visit_synthetic_without_positional_throws :
  visit (Sample.rule []) Sample.namedOnly
  = Thrown (TypeError "node.params[0].loc") (Sample.fresh Sample.namedOnly).
Proof. reflexivity. Qed.

(** The closing brace of the inline sample, where line 4 is expected. *)
Lemma validateCloseBrace_idempotent_witness :
  exists ds c,
    (ds = [] \/ exists d, ds = [d])
    /\ (forall lg cmp,
           validateCloseBrace (Sample.rule Sample.contactLines) 4
             (mkState Sample.contact lg cmp)
           = Returned tt (mkState Sample.contact (lg ++ ds) (cmp ++ [c])))
    /\ (validateCloseBrace (Sample.rule Sample.contactLines) 4 ;;;
        validateCloseBrace (Sample.rule Sample.contactLines) 4)
         (Sample.fresh Sample.contact)
       = Returned tt (mkState Sample.contact (([] ++ ds) ++ ds)
                              (([] ++ [c]) ++ [c])).
Proof.
  exact (validateCloseBrace_idempotent (Sample.rule Sample.contactLines) 4
           (Sample.fresh Sample.contact)).
Defined.

(** * Further properties of the rule *)

(** ** Leading white space *)

Lemma length_append (s1 s2 : string) :
  String.length (s1 +:+ s2) = (String.length s1 + String.length s2)%nat.
Proof. induction s1 as [|c s1 IH]; cbn; [reflexivity | now rewrite IH]. Qed.

Lemma leadingWhiteSpace_split (s : string) :
  exists prefix rest,
    s = prefix +:+ rest
    /\ Forall (fun c => isWhiteSpace c = true) (list_ascii_of_string prefix)
    /\ match rest with
       | String c _ => isWhiteSpace c = false
       | EmptyString => True
       end
    /\ leadingWhiteSpace s = len prefix.
Proof.
  induction s as [|c s (prefix & rest & Hs & Hws & Hrest & Hlen)].
  - exists EmptyString, EmptyString. repeat split. constructor.
  - cbn [leadingWhiteSpace]. destruct (isWhiteSpace c) eqn:Hc.
    + exists (String c prefix), rest. repeat split.
      * cbn. now rewrite <- Hs.
      * cbn. now constructor.
      * exact Hrest.
      * rewrite Hlen. unfold len. cbn [String.length]. lia.
    + exists EmptyString, (String c s). repeat split.
      * constructor.
      * exact Hc.
Qed.

(** X1.  [getWhiteSpaceLength] returns the length of the longest prefix of
    the statement that is all white space: the statement splits into that
    prefix and a rest that is empty or starts with another character.  The
    count lies between zero and the length of the statement, the state is
    left alone, and an [undefined] statement throws a [TypeError]. *)
Theorem getWhiteSpaceLength_counts (statement : string) (s : RuleState) :
  (exists prefix rest,
      statement = prefix +:+ rest
      /\ Forall (fun c => isWhiteSpace c = true) (list_ascii_of_string prefix)
      /\ match rest with
         | String c _ => isWhiteSpace c = false
         | EmptyString => True
         end
      /\ getWhiteSpaceLength (Some statement) s = Returned (len prefix) s
      /\ 0 <= len prefix <= len statement)
  /\ getWhiteSpaceLength None s = Thrown (TypeError "statement.match") s.
Proof.
  split; [|reflexivity].
  destruct (leadingWhiteSpace_split statement)
    as (prefix & rest & Hs & Hws & Hrest & Hlen).
  exists prefix, rest. repeat split; try assumption.
  - unfold getWhiteSpaceLength. cbn. unfold ret. now rewrite Hlen.
  - unfold len. lia.
  - rewrite Hs. unfold len. rewrite length_append. lia.
Qed.

(** ** Coordinates *)

Lemma differs_false_iff (a b : Position) : differs a b = false <-> a = b.
Proof.
  destruct a as [la ca], b as [lb cb]. unfold differs. cbn [line column].
  rewrite orb_false_iff, !negb_false_iff, !Z.eqb_eq.
  split; [intros [-> ->]; reflexivity | intros [= -> ->]; auto].
Qed.

Lemma differs_true_iff (a b : Position) : differs a b = true <-> a <> b.
Proof.
  rewrite <- differs_false_iff. destruct (differs a b); split; congruence.
Qed.

(** ** The closing delimiters in closed form *)

Lemma validateCloseBrace_run (this : Rule.t) (expectedStartLine : Z)
    (node : Node) :
  exists d,
    Geometry.position d = Geometry.closeBraceActual node
    /\ Diagnostic.source d
       = Rule.sourceForNode this (Span.ofLoc (Node.loc node))
    /\ forall lg cmp,
        validateCloseBrace this expectedStartLine (mkState node lg cmp)
        = Returned tt
            (mkState node
               (lg ++ if differs (Geometry.closeBraceActual node)
                                 (Geometry.atStartColumn node expectedStartLine)
                      then [d] else [])
               (cmp ++ [Comparison.make
                          (Geometry.atStartColumn node expectedStartLine)
                          (Geometry.closeBraceActual node)])).
Proof.
  eexists (Diagnostic.make _ _ _ _).
  split; [reflexivity|]. split; [reflexivity|]. intros lg cmp.
  unfold validateCloseBrace. unfold bind at 1. unfold thisNode at 1.
  cbn [tree]. unfold bind at 1. unfold mismatch at 1.
  cbn [tree logged compared].
  fold (Geometry.closeBraceOffset node).
  fold (Geometry.closeBraceActual node).
  fold (Geometry.atStartColumn node expectedStartLine).
  destruct (differs _ _).
  - reflexivity.
  - unfold ret. now rewrite app_nil_r.
Qed.

Lemma validateClosingTag_run (this : Rule.t) (expectedStartLine : Z)
    (node : Node) (tag : string) :
  Node.tag node = Some tag ->
  exists d,
    Geometry.position d = Geometry.closingTagActual node tag
    /\ Diagnostic.source d
       = Rule.sourceForNode this (Span.ofLoc (Node.loc node))
    /\ forall lg cmp,
        validateClosingTag this expectedStartLine (mkState node lg cmp)
        = Returned tt
            (mkState node
               (lg ++ if differs (Geometry.closingTagActual node tag)
                                 (Geometry.atStartColumn node expectedStartLine)
                      then [d] else [])
               (cmp ++ [Comparison.make
                          (Geometry.atStartColumn node expectedStartLine)
                          (Geometry.closingTagActual node tag)])).
Proof.
  intros Htag.
  eexists (Diagnostic.make _ _ _ _).
  split; [reflexivity|]. split; [reflexivity|]. intros lg cmp.
  unfold validateClosingTag. unfold bind at 1. unfold thisNode at 1.
  cbn [tree]. rewrite Htag. unfold bind at 1. cbn [prop]. unfold ret at 1.
  unfold bind at 1. unfold mismatch at 1. cbn [tree logged compared].
  fold (Geometry.closingTagActual node tag).
  fold (Geometry.atStartColumn node expectedStartLine).
  destruct (differs _ _).
  - reflexivity.
  - unfold ret. now rewrite app_nil_r.
Qed.

(** ** The block-parameter clause in closed form *)

Lemma hasArguments_tail (params : list Param.t) (hash : Hash.t) :
  Geometry.hasArguments params hash = true <->
  exists tail, Stated.tail params hash = Some tail.
Proof.
  unfold Geometry.hasArguments, Stated.tail.
  destruct (Hash.pairs hash) as [|pair pairs].
  - destruct params as [|param rest]; cbn.
    + split; [discriminate | intros [tail H]; discriminate].
    + split; [intros _|reflexivity].
      rewrite Nat.sub_0_r.
      destruct (nth_error (param :: rest) (List.length rest)) eqn:E.
      * now eexists.
      * apply nth_error_None in E. cbn in E. lia.
  - rewrite orb_true_r. split; [intros _; now eexists | reflexivity].
Qed.

Section BlockParams.

Variable this : Rule.t.
Variables (path : Path.t) (params : list Param.t) (hash : Hash.t).
Variables (program : Program.t) (loc : Loc.t).

Let node := BlockStatement path params hash program loc.
Let nodeStart := Loc.start loc.
Let bodyStart := Loc.start (Program.loc program).

Lemma getBlockParamStartLoc_no_arguments lg cmp :
  Geometry.hasArguments params hash = false ->
  getBlockParamStartLoc this (mkState node lg cmp)
  = Returned
      (Expectation.make
         (Some (if line nodeStart =? line bodyStart
                then mkPosition (line nodeStart)
                                (len ("{{#" +:+ Path.original path))
                else mkPosition (line bodyStart)
                       (leadingWhiteSpace (Geometry.bodyLinePrefix this program))))
         (mkPosition (line nodeStart + 1) (column nodeStart)))
      (mkState node lg cmp).
Proof.
  intros Hnone. unfold Geometry.hasArguments, nonEmpty in Hnone.
  apply orb_false_elim in Hnone as [Hp Hh].
  apply negb_false_iff in Hp, Hh.
  unfold getBlockParamStartLoc. unfold bind at 1. unfold thisNode at 1.
  cbn [tree node]. rewrite Hp, Hh. cbn [andb].
  fold nodeStart. fold bodyStart.
  destruct (line nodeStart =? line bodyStart); reflexivity.
Qed.

Lemma getBlockParamStartLoc_arguments lg cmp tail :
  Stated.tail params hash = Some tail ->
  let s := mkState node lg cmp in
  let expected := mkPosition (line tail + 1) (column nodeStart) in
  getBlockParamStartLoc this s
  = if line tail =? line bodyStart then
      Returned (Expectation.make (Some tail) expected) s
    else if line tail <? line bodyStart then
      if negb (Geometry.trailingText this tail === EmptyString) then
        Returned (Expectation.make (Some tail) expected) s
      else
        match index (Rule.source this) (line bodyStart - 1) with
        | Some text =>
            Returned
              (Expectation.make
                 (Some (mkPosition (line bodyStart) (leadingWhiteSpace text)))
                 expected) s
        | None => Thrown (TypeError "statement.match") s
        end
    else Returned (Expectation.make None expected) s.
Proof.
  intros Htail s expected.
  unfold getBlockParamStartLoc. unfold bind at 1. unfold thisNode at 1.
  cbn [tree s node].
  assert (Hanchor :
    (if nonEmpty (Hash.pairs hash) then Some (Loc.end_ (Hash.loc hash))
     else if nonEmpty params
          then option_map (fun p => Loc.end_ (Param.loc p)) (lastOf params)
          else None) = Some tail
    /\ (Z.of_nat (List.length params) =? 0)
       && (Z.of_nat (List.length (Hash.pairs hash)) =? 0) = false).
  { unfold Stated.tail in Htail. rewrite lastOf_nth_error.
    destruct (Hash.pairs hash) as [|pair pairs].
    - destruct params as [|param rest]; [discriminate|].
      split; [exact Htail | reflexivity].
    - split; [exact Htail | apply andb_false_r]. }
  destruct Hanchor as [Hanchor Hargs]. rewrite Hargs, Hanchor.
  unfold bind at 1. cbn [prop]. unfold ret at 1.
  fold nodeStart. fold bodyStart. fold expected.
  fold (Geometry.trailingText this tail).
  destruct (line tail =? line bodyStart); [reflexivity|].
  destruct (line tail <? line bodyStart); [|reflexivity].
  destruct (negb _); [reflexivity|].
  unfold getWhiteSpaceLength.
  destruct (index (Rule.source this) (line bodyStart - 1)); reflexivity.
Qed.

(** What [validateBlockParams] does with the expectation it is given. *)
Lemma validateBlockParams_run lg cmp :
  let s := mkState node lg cmp in
  match getBlockParamStartLoc this s with
  | Returned location s' =>
      s' = s ->
      match Expectation.actual location with
      | Some actual =>
          exists d,
            Geometry.position d = actual
            /\ Diagnostic.source d
               = Rule.sourceForNode this (Span.ofLoc loc)
            /\ validateBlockParams this s
               = Returned tt
                   (mkState node
                      (lg ++ if differs actual (Expectation.expected location)
                             then [d] else [])
                      (cmp ++ [Comparison.make (Expectation.expected location)
                                               actual]))
      | None => validateBlockParams this s = Thrown (TypeError "actual.line") s
      end
  | Thrown e s' => validateBlockParams this s = Thrown e s'
  end.
Proof.
  intros s.
  destruct (getBlockParamStartLoc this s) as [location s'|e s'] eqn:Hrun.
  2: { unfold validateBlockParams. unfold bind at 1. now rewrite Hrun. }
  intros ->. destruct (Expectation.actual location) as [actual|] eqn:Hactual.
  - destruct actual as [actualLine actualColumn].
    eexists (Diagnostic.make _ _ _ _).
    split; [reflexivity|]. split; [reflexivity|].
    unfold validateBlockParams. unfold bind at 1. rewrite Hrun, Hactual.
    unfold bind at 1. cbn [prop]. unfold ret at 1.
    unfold bind at 1. unfold mismatch at 1. cbn [tree logged compared s].
    destruct (differs _ _).
    + reflexivity.
    + unfold ret. now rewrite app_nil_r.
  - unfold validateBlockParams. unfold bind at 1. rewrite Hrun, Hactual.
    reflexivity.
Qed.

End BlockParams.

Lemma len_open_block (name : string) : len ("{{#" +:+ name) = 3 + len name.
Proof. unfold len. cbn [String.append String.length]. lia. Qed.

Lemma differs_own_line (l c l' c' : Z) :
  differs (mkPosition l c) (mkPosition l' c')
  = negb ((l =? l') && (c =? c')).
Proof. unfold differs. cbn [line column]. now rewrite negb_andb. Qed.

Lemma differs_line_below (p : Position) (c : Z) :
  differs p (mkPosition (line p + 1) c) = true.
Proof.
  unfold differs. cbn [line].
  replace (line p =? line p + 1) with false; [reflexivity|].
  symmetry. apply Z.eqb_neq. lia.
Qed.

(** X2.  A block-parameter clause that shares its line with what precedes
    it is always reported, exactly once.  Without arguments and with the
    body starting on the opening line, the clause is located right after
    the rendered [{{#name], at column [3 + name.length]; with arguments it
    is located at the anchor [tail] when the body starts on the anchor's
    line, or when some text follows the anchor on its line.  In each case
    the clause was expected one line below, so the two always differ. *)
Theorem validateBlockParams_shared_line_reports
    (this : Rule.t) (path : Path.t) (params : list Param.t) (hash : Hash.t)
    (program : Program.t) (loc : Loc.t) (lg : list Diagnostic.t)
    (cmp : list Comparison.t) :
  let node := BlockStatement path params hash program loc in
  let start := Loc.start loc in
  let body := Loc.start (Program.loc program) in
  (Geometry.hasArguments params hash = false -> line body = line start ->
   let found := mkPosition (line start) (3 + len (Path.original path)) in
   exists d,
     Geometry.position d = found
     /\ validateBlockParams this (mkState node lg cmp)
        = Returned tt
            (mkState node (lg ++ [d])
               (cmp ++ [Comparison.make
                          (mkPosition (line start + 1) (column start))
                          found])))
  /\ (forall tail,
         Stated.tail params hash = Some tail ->
         line tail = line body
         \/ (line tail < line body
             /\ Geometry.trailingText this tail <> EmptyString) ->
         exists d,
           Geometry.position d = tail
           /\ validateBlockParams this (mkState node lg cmp)
              = Returned tt
                  (mkState node (lg ++ [d])
                     (cmp ++ [Comparison.make
                                (mkPosition (line tail + 1) (column start))
                                tail]))).
Proof.
  intros node start body. subst node. split.
  - intros Hnone Hline found.
    pose proof (validateBlockParams_run this path params hash program loc
                  lg cmp) as Hrun.
    cbv zeta in Hrun.
    rewrite (getBlockParamStartLoc_no_arguments this path params hash
               program loc lg cmp Hnone) in Hrun.
    specialize (Hrun eq_refl). cbn [Expectation.actual Expectation.expected]
      in Hrun.
    fold start body in Hrun.
    rewrite (proj2 (Z.eqb_eq _ _) (eq_sym Hline)), len_open_block in Hrun.
    fold found in Hrun.
    destruct Hrun as (d & Hpos & _ & Hrun). exists d. split; [exact Hpos|].
    rewrite Hrun.
    now rewrite (differs_line_below found (column start)
                 : differs found (mkPosition (line start + 1) (column start))
                   = true).
  - intros tail Htail Hshared.
    pose proof (validateBlockParams_run this path params hash program loc
                  lg cmp) as Hrun.
    cbv zeta in Hrun.
    rewrite (getBlockParamStartLoc_arguments this path params hash program
               loc lg cmp tail Htail) in Hrun.
    fold start body in Hrun.
    assert (Hcase :
      (if line tail =? line body then true
       else if line tail <? line body
            then negb (Geometry.trailingText this tail === EmptyString)
            else false) = true).
    { destruct Hshared as [Heq | [Hlt Htext]].
      - now rewrite (proj2 (Z.eqb_eq _ _) Heq).
      - rewrite (proj2 (Z.eqb_neq _ _)) by lia.
        rewrite (proj2 (Z.ltb_lt _ _) Hlt).
        apply negb_true_iff. apply String.eqb_neq. exact Htext. }
    destruct (line tail =? line body).
    + specialize (Hrun eq_refl).
      cbn [Expectation.actual Expectation.expected] in Hrun.
      destruct Hrun as (d & Hpos & _ & Hrun). exists d. split; [exact Hpos|].
      rewrite Hrun. now rewrite differs_line_below.
    + destruct (line tail <? line body); [|discriminate].
      rewrite Hcase in Hrun. specialize (Hrun eq_refl).
      cbn [Expectation.actual Expectation.expected] in Hrun.
      destruct Hrun as (d & Hpos & _ & Hrun). exists d. split; [exact Hpos|].
      rewrite Hrun. now rewrite differs_line_below.
Qed.

(** The clause on the opening line of the sample is found at L1:C19 and
    was expected at L2:C0. *)
Lemma validateBlockParams_shared_line_reports_witness :
  exists d,
    Geometry.position d = mkPosition 1 19
    /\ validateBlockParams (Sample.rule Layouts.inlineClauseLines)
                           (Sample.fresh Layouts.inlineClause)
       = Returned tt
           (mkState Layouts.inlineClause [d]
              [Comparison.make (mkPosition 2 0) (mkPosition 1 19)]).
Proof.
  apply (proj1 (validateBlockParams_shared_line_reports
                  (Sample.rule Layouts.inlineClauseLines)
                  (Path.make "employee-details" (Sample.at_ 1 3 1 19))
                  [] Sample.noHash
                  (Program.make (Sample.at_ 1 35 3 0) (Some [ "employee" ]))
                  (Sample.at_ 1 0 3 21) [] []));
    reflexivity.
Defined.

(** X3.  A block-parameter clause on a line of its own is located on the
    body's start line, at the column given by that line's leading white
    space, and is accepted exactly when that line is the one below the
    anchor (the opening line without arguments, the anchor [tail] with
    arguments and nothing but blanks after it) and the indentation equals
    the invocation's start column; otherwise it is reported once, at the
    place where it was found. *)
Theorem validateBlockParams_own_line
    (this : Rule.t) (path : Path.t) (params : list Param.t) (hash : Hash.t)
    (program : Program.t) (loc : Loc.t) (lg : list Diagnostic.t)
    (cmp : list Comparison.t) :
  let node := BlockStatement path params hash program loc in
  let start := Loc.start loc in
  let body := Loc.start (Program.loc program) in
  (Geometry.hasArguments params hash = false -> line body <> line start ->
   let indent := leadingWhiteSpace (Geometry.bodyLinePrefix this program) in
   exists d,
     Geometry.position d = mkPosition (line body) indent
     /\ validateBlockParams this (mkState node lg cmp)
        = Returned tt
            (mkState node
               (lg ++ if (line body =? line start + 1)
                         && (indent =? column start)
                      then [] else [d])
               (cmp ++ [Comparison.make
                          (mkPosition (line start + 1) (column start))
                          (mkPosition (line body) indent)])))
  /\ (forall tail text,
         Stated.tail params hash = Some tail ->
         line tail < line body ->
         Geometry.trailingText this tail = EmptyString ->
         index (Rule.source this) (line body - 1) = Some text ->
         let indent := leadingWhiteSpace text in
         exists d,
           Geometry.position d = mkPosition (line body) indent
           /\ validateBlockParams this (mkState node lg cmp)
              = Returned tt
                  (mkState node
                     (lg ++ if (line body =? line tail + 1)
                               && (indent =? column start)
                            then [] else [d])
                     (cmp ++ [Comparison.make
                                (mkPosition (line tail + 1) (column start))
                                (mkPosition (line body) indent)]))).
Proof.
  intros node start body. subst node. split.
  - intros Hnone Hline indent.
    pose proof (validateBlockParams_run this path params hash program loc
                  lg cmp) as Hrun.
    cbv zeta in Hrun.
    rewrite (getBlockParamStartLoc_no_arguments this path params hash
               program loc lg cmp Hnone) in Hrun.
    specialize (Hrun eq_refl).
    cbn [Expectation.actual Expectation.expected] in Hrun.
    fold start body in Hrun.
    rewrite (proj2 (Z.eqb_neq _ _)) in Hrun by congruence.
    fold indent in Hrun.
    destruct Hrun as (d & Hpos & _ & Hrun). exists d. split; [exact Hpos|].
    rewrite Hrun, differs_own_line.
    now destruct ((line body =? line start + 1) && (indent =? column start)).
  - intros tail text Htail Hlt Hblank Hsource indent.
    pose proof (validateBlockParams_run this path params hash program loc
                  lg cmp) as Hrun.
    cbv zeta in Hrun.
    rewrite (getBlockParamStartLoc_arguments this path params hash program
               loc lg cmp tail Htail) in Hrun.
    fold start body in Hrun.
    rewrite (proj2 (Z.eqb_neq _ _)) in Hrun by lia.
    rewrite (proj2 (Z.ltb_lt _ _) Hlt), Hblank, Hsource in Hrun.
    cbn [String.eqb negb] in Hrun.
    specialize (Hrun eq_refl).
    cbn [Expectation.actual Expectation.expected] in Hrun.
    fold indent in Hrun.
    destruct Hrun as (d & Hpos & _ & Hrun). exists d. split; [exact Hpos|].
    rewrite Hrun, differs_own_line.
    now destruct ((line body =? line tail + 1) && (indent =? column start)).
Qed.

(** The laid-out sample is accepted: the clause is on line 4, right below
    [age=age], at column 0. *)
Lemma validateBlockParams_own_line_witness :
  exists d,
    Geometry.position d = mkPosition 4 0
    /\ validateBlockParams (Sample.rule Sample.employeeLines)
                           (Sample.fresh Sample.employee)
       = Returned tt
           (mkState Sample.employee []
              [Comparison.make (mkPosition 4 0) (mkPosition 4 0)]).
Proof.
  apply (proj2 (validateBlockParams_own_line
                  (Sample.rule Sample.employeeLines) Sample.employeePath
                  Sample.employeeParams Sample.employeeHash
                  Sample.employeeBody (Sample.at_ 1 0 6 21) [] [])
           (mkPosition 3 9) "as |employee|}}");
    reflexivity.
Defined.

(** X4.  On a block form [validateBlockParams] throws in two situations
    only, both with arguments present: the anchor [tail] lies below the
    body's start line, which leaves the found coordinate undefined; or the
    clause is on a later line, nothing but blanks follows the anchor, and
    the source has no line with the number of the body's start line.  When
    it throws, nothing was logged or compared. *)
Theorem validateBlockParams_throws_iff
    (this : Rule.t) (path : Path.t) (params : list Param.t) (hash : Hash.t)
    (program : Program.t) (loc : Loc.t) (lg : list Diagnostic.t)
    (cmp : list Comparison.t) :
  let s := mkState (BlockStatement path params hash program loc) lg cmp in
  let body := Loc.start (Program.loc program) in
  ((exists e s', validateBlockParams this s = Thrown e s')
   <-> exists tail,
        Stated.tail params hash = Some tail
        /\ (line body < line tail
            \/ (line tail < line body
                /\ Geometry.trailingText this tail = EmptyString
                /\ index (Rule.source this) (line body - 1) = None)))
  /\ (forall e s', validateBlockParams this s = Thrown e s' -> s' = s).
Proof.
  intros s body. subst s.
  pose proof (validateBlockParams_run this path params hash program loc
                lg cmp) as Hrun.
  cbv zeta in Hrun.
  destruct (Geometry.hasArguments params hash) eqn:Hargs.
  - apply hasArguments_tail in Hargs as [tail Htail].
    rewrite (getBlockParamStartLoc_arguments this path params hash program
               loc lg cmp tail Htail) in Hrun.
    fold body in Hrun.
    assert (Hsame : forall tail', Stated.tail params hash = Some tail' ->
                                  tail' = tail) by (intros; congruence).
    destruct (line tail =? line body) eqn:Heq.
    { apply Z.eqb_eq in Heq. specialize (Hrun eq_refl).
      cbn [Expectation.actual] in Hrun.
      destruct Hrun as (d & _ & _ & Hrun). rewrite Hrun.
      split; [split|]; try discriminate.
      - intros (e & s' & H). discriminate.
      - intros (tail' & Htail' & H). apply Hsame in Htail'. subst. lia. }
    apply Z.eqb_neq in Heq.
    destruct (line tail <? line body) eqn:Hlt.
    + apply Z.ltb_lt in Hlt.
      destruct (Geometry.trailingText this tail === EmptyString) eqn:Htext;
        cbn [negb] in Hrun.
      * apply String.eqb_eq in Htext.
        destruct (index (Rule.source this) (line body - 1)) as [text|]
          eqn:Hsource.
        -- specialize (Hrun eq_refl). cbn [Expectation.actual] in Hrun.
           destruct Hrun as (d & _ & _ & Hrun). rewrite Hrun.
           split; [split|]; try discriminate.
           ++ intros (e & s' & H). discriminate.
           ++ intros (tail' & Htail' & [H | (_ & _ & H)]).
              ** apply Hsame in Htail'. subst. lia.
              ** discriminate.
        -- rewrite Hrun. split; [split|].
           ++ intros _. exists tail. split; [exact Htail|]. right. auto.
           ++ intros _. now eexists _, _.
           ++ intros e s' [= _ <-]. reflexivity.
      * apply String.eqb_neq in Htext.
        specialize (Hrun eq_refl). cbn [Expectation.actual] in Hrun.
        destruct Hrun as (d & _ & _ & Hrun). rewrite Hrun.
        split; [split|]; try discriminate.
        -- intros (e & s' & H). discriminate.
        -- intros (tail' & Htail' & [H | (_ & H & _)]).
           ++ apply Hsame in Htail'. subst. lia.
           ++ apply Hsame in Htail'. subst. contradiction.
    + apply Z.ltb_ge in Hlt. specialize (Hrun eq_refl).
      cbn [Expectation.actual] in Hrun. rewrite Hrun. split; [split|].
      * intros _. exists tail. split; [exact Htail|]. left. lia.
      * intros _. now eexists _, _.
      * intros e s' [= _ <-]. reflexivity.
  - rewrite (getBlockParamStartLoc_no_arguments this path params hash
               program loc lg cmp Hargs) in Hrun.
    specialize (Hrun eq_refl). cbn [Expectation.actual] in Hrun.
    destruct Hrun as (d & _ & _ & Hrun). rewrite Hrun.
    split; [split|]; try discriminate.
    + intros (e & s' & H). discriminate.
    + intros (tail & Htail & _).
      assert (Geometry.hasArguments params hash = true)
        by (apply hasArguments_tail; now exists tail).
      congruence.
Qed.

(** The block form whose body location lies above its arguments. *)
Lemma validateBlockParams_throws_iff_witness :
  exists e s',
    validateBlockParams (Sample.rule Sample.hollowLines)
                        (Sample.fresh Sample.hollow)
    = Thrown e s'.
Proof.
  apply (proj2 (proj1 (validateBlockParams_throws_iff
                         (Sample.rule Sample.hollowLines)
                         (Path.make "foo-bar" (Sample.at_ 2 5 2 12))
                         []
                         (Hash.make
                            [ Sample.hashPair "baz" (Sample.at_ 3 4 3 11)
                                "PathExpression" (Sample.at_ 3 8 3 11) ]
                            (Sample.at_ 3 4 3 11))
                         (Program.make Sample.syntheticLoc (Some [ "x" ]))
                         (Sample.at_ 2 2 4 22) [] []))).
  exists (mkPosition 3 11). split; [reflexivity|]. left. cbn. lia.
Defined.

(** ** The closing delimiters *)

(** X5.  [validateCloseBrace] never throws and makes one comparison: the
    closing delimiter is looked for on the line where the opening ends, two
    columns before that end (one column for the bracket of an element that
    is not self-closing), and is expected on the given line at the node's
    start column.  It logs nothing exactly when the two coordinates are
    equal, and otherwise a single diagnostic that points at the place where
    the delimiter was looked for. *)
Theorem validateCloseBrace_accepts_iff
    (this : Rule.t) (expectedStartLine : Z) (s : RuleState) :
  let found := Geometry.closeBraceActual (tree s) in
  let expected := Geometry.atStartColumn (tree s) expectedStartLine in
  exists ds,
    validateCloseBrace this expectedStartLine s
    = Returned tt (mkState (tree s) (logged s ++ ds)
                           (compared s ++ [Comparison.make expected found]))
    /\ (ds = [] <-> found = expected)
    /\ (forall d, In d ds -> Geometry.position d = found)
    /\ (List.length ds <= 1)%nat.
Proof.
  intros found expected.
  destruct (validateCloseBrace_run this expectedStartLine (tree s))
    as (d & Hpos & _ & Hrun).
  fold found expected in Hrun, Hpos.
  exists (if differs found expected then [d] else []).
  split; [|split; [|split]].
  - rewrite <- (state_eta s) at 1. apply Hrun.
  - rewrite <- differs_false_iff. destruct (differs found expected);
      split; congruence.
  - intros d' Hin. destruct (differs found expected); [|contradiction].
    destruct Hin as [<-|[]]. exact Hpos.
  - destruct (differs found expected); cbn; lia.
Qed.

Lemma validateCloseBrace_accepts_iff_witness :
  exists ds,
    validateCloseBrace (Sample.rule Layouts.tidyLines) 4
                       (Sample.fresh Layouts.tidy)
    = Returned tt
        (mkState Layouts.tidy ([] ++ ds)
           ([] ++ [Comparison.make (mkPosition 4 0) (mkPosition 4 0)]))
    /\ (ds = [] <-> mkPosition 4 0 = mkPosition 4 0)
    /\ (forall d, In d ds -> Geometry.position d = mkPosition 4 0)
    /\ (List.length ds <= 1)%nat.
Proof.
  exact (validateCloseBrace_accepts_iff (Sample.rule Layouts.tidyLines) 4
           (Sample.fresh Layouts.tidy)).
Defined.

(** X6.  For an element without children that is not self-closing the
    opening is taken to end where the whole element ends, after its closing
    tag.  So when the bracket of the opening tag stands at the element's
    start column and the closing tag follows it at once, the bracket is
    looked for on the last character of the closing tag, and the element is
    reported whatever line was expected. *)
Theorem validateCloseBrace_empty_element_reported
    (this : Rule.t) (tag : string) (attributes : list Param.t) (loc : Loc.t)
    (expectedStartLine : Z) (lg : list Diagnostic.t)
    (cmp : list Comparison.t) :
  let node := ElementNode tag attributes [] false loc in
  let found :=
    mkPosition (line (Loc.end_ loc))
               (column (Loc.start loc) + 3 + len tag) in
  column (Loc.end_ loc) = column (Loc.start loc) + 1 + (3 + len tag) ->
  exists d,
    Geometry.position d = found
    /\ validateCloseBrace this expectedStartLine (mkState node lg cmp)
       = Returned tt
           (mkState node (lg ++ [d])
              (cmp ++ [Comparison.make
                         (mkPosition expectedStartLine (column (Loc.start loc)))
                         found])).
Proof.
  intros node found Hend.
  destruct (validateCloseBrace_run this expectedStartLine node)
    as (d & Hpos & _ & Hrun).
  assert (Hfound : Geometry.closeBraceActual node = found).
  { unfold Geometry.closeBraceActual, Geometry.closeBraceOffset, found.
    cbn. f_equal. lia. }
  rewrite Hfound in Hpos, Hrun.
  exists d. split; [exact Hpos|]. rewrite Hrun.
  replace (differs found (Geometry.atStartColumn node expectedStartLine))
    with true; [reflexivity|].
  symmetry. unfold differs, found, Geometry.atStartColumn. cbn [line column].
  apply orb_true_iff. right. apply negb_true_iff. apply Z.eqb_neq.
  cbn [Node.loc node]. unfold len. lia.
Qed.

(** The element of the sample ends at L3:C11; its bracket, at L3:C0, is
    looked for at L3:C10. *)
Lemma validateCloseBrace_empty_element_reported_witness :
  exists d,
    Geometry.position d = mkPosition 3 10
    /\ validateCloseBrace (Sample.rule Layouts.emptySectionLines) 3
                          (Sample.fresh Layouts.emptySection)
       = Returned tt
           (mkState Layouts.emptySection [d]
              [Comparison.make (mkPosition 3 0) (mkPosition 3 10)]).
Proof.
  apply (validateCloseBrace_empty_element_reported
           (Sample.rule Layouts.emptySectionLines) "section"
           [ Sample.attrNode "class" (Sample.at_ 2 2 2 9) "TextNode"
                             (Sample.at_ 2 8 2 9) ]
           (Sample.at_ 1 0 3 11) 3 [] []).
  reflexivity.
Defined.

(** X7.  On a markup element [validateClosingTag] never throws and makes one
    comparison: the closing tag is looked for on the element's end line,
    [3 + tag.length] columns before its end, and is expected on the given
    line at the element's start column; nothing is logged exactly when the
    two are equal, a single diagnostic pointing at the place looked at
    otherwise.  On an invocation, which has no tag, it throws a [TypeError]
    before comparing or logging anything. *)
Theorem validateClosingTag_outcome
    (this : Rule.t) (expectedStartLine : Z) (s : RuleState) :
  (forall tag,
      Node.tag (tree s) = Some tag ->
      let found := Geometry.closingTagActual (tree s) tag in
      let expected := Geometry.atStartColumn (tree s) expectedStartLine in
      exists ds,
        validateClosingTag this expectedStartLine s
        = Returned tt (mkState (tree s) (logged s ++ ds)
                               (compared s ++ [Comparison.make expected found]))
        /\ (ds = [] <-> found = expected)
        /\ (forall d, In d ds -> Geometry.position d = found)
        /\ (List.length ds <= 1)%nat)
  /\ (Node.tag (tree s) = None ->
      validateClosingTag this expectedStartLine s
      = Thrown (TypeError "node.tag.length") s).
Proof.
  split.
  - intros tag Htag found expected.
    destruct (validateClosingTag_run this expectedStartLine (tree s) tag Htag)
      as (d & Hpos & _ & Hrun).
    fold found expected in Hrun, Hpos.
    exists (if differs found expected then [d] else []).
    split; [|split; [|split]].
    + rewrite <- (state_eta s) at 1. apply Hrun.
    + rewrite <- differs_false_iff. destruct (differs found expected);
        split; congruence.
    + intros d' Hin. destruct (differs found expected); [|contradiction].
      destruct Hin as [<-|[]]. exact Hpos.
    + destruct (differs found expected); cbn; lia.
  - intros Hnone. unfold validateClosingTag. unfold bind at 1.
    unfold thisNode at 1. rewrite Hnone. reflexivity.
Qed.

(** The closing tag of the sample, ten columns wide, ends the element at
    L5:C10 and is found at L5:C0. *)
Lemma validateClosingTag_outcome_witness :
  exists ds,
    validateClosingTag (Sample.rule Layouts.sectionLines) 5
                       (Sample.fresh Layouts.section_)
    = Returned tt
        (mkState Layouts.section_ ([] ++ ds)
           ([] ++ [Comparison.make (mkPosition 5 0) (mkPosition 5 0)]))
    /\ (ds = [] <-> mkPosition 5 0 = mkPosition 5 0)
    /\ (forall d, In d ds -> Geometry.position d = mkPosition 5 0)
    /\ (List.length ds <= 1)%nat.
Proof.
  exact (proj1 (validateClosingTag_outcome (Sample.rule Layouts.sectionLines)
                  5 (Sample.fresh Layouts.section_))
           "section" eq_refl).
Defined.

(** ** More on the walk over the arguments *)

Lemma advancingLine_plain (entry : Param.t) (expectedLine : Z) :
  Geometry.plain entry = true ->
  Stated.advancingLine entry expectedLine = expectedLine.
Proof.
  unfold Geometry.plain, Stated.advancingLine. intros H.
  apply andb_prop in H as [H1 H2].
  apply negb_true_iff in H1, H2. now rewrite H1, H2.
Qed.

Lemma lineAfter_plain (entries : list (Stated.Kind * Param.t)) :
  forall first,
    Forall (fun e => Geometry.plain (snd e) = true) entries ->
    Stated.lineAfter entries first = first + Z.of_nat (List.length entries).
Proof.
  induction entries as [|[k e] entries IH]; intros first Hplain.
  - cbn. lia.
  - inversion Hplain as [|? ? He Hrest]; subst. cbn [Stated.lineAfter].
    rewrite (advancingLine_plain e first He), IH by assumption.
    cbn [List.length]. lia.
Qed.

Lemma expectedLines_plain (entries : list (Stated.Kind * Param.t)) :
  forall first,
    Forall (fun e => Geometry.plain (snd e) = true) entries ->
    Stated.expectedLines entries first
    = map (fun k => first + Z.of_nat k) (seq 0 (List.length entries)).
Proof.
  induction entries as [|[k e] entries IH]; intros first Hplain.
  - reflexivity.
  - inversion Hplain as [|? ? He Hrest]; subst.
    cbn [Stated.expectedLines List.length seq map].
    rewrite (advancingLine_plain e first He), IH by assumption.
    f_equal; [cbn; lia|].
    rewrite <- seq_shift, map_map. apply map_ext. intros n. lia.
Qed.

(** X8.  When no entry of the validated sequence is a sub-expression or has
    an inline invocation as its value, the walk advances by exactly one
    line per entry: for a node whose path is not marked synthetic the
    entries are expected on the consecutive lines
    [node.start.line + 1, node.start.line + 2, ...], all at column
    [node.start.column + indentation], and [validateParams] returns
    [node.start.line + 1 + n] for [n] entries, the line on which the
    closing delimiter is then expected. *)
Theorem validateParams_plain_lines
    (this : Rule.t) (node : Node) (lg : list Diagnostic.t)
    (cmp : list Comparison.t) :
  let entries := Stated.sequence node in
  let first := line (Loc.start (Node.loc node)) + 1 in
  let column_ :=
    column (Loc.start (Node.loc node))
    + Options.indentation (Rule.config this) in
  Stated.synthetic node = false ->
  Forall (fun e => Stated.wellFormed e = true) entries ->
  Forall (fun e => Geometry.plain (snd e) = true) entries ->
  exists ds,
    validateParams this (mkState node lg cmp)
    = Returned
        (first + Z.of_nat (List.length entries))
        (mkState node (lg ++ ds)
           (cmp ++ map (fun ek =>
                          Comparison.make
                            (mkPosition (first + Z.of_nat (snd ek)) column_)
                            (Stated.actualCoordinate (fst ek)))
                       (combine entries (seq 0 (List.length entries))))).
Proof.
  intros entries first column_ Hsyn WF Hplain.
  pose proof (validateParams_run this node lg cmp) as Hrun.
  rewrite Hsyn in Hrun. cbn [andb] in Hrun.
  specialize (Hrun ltac:(discriminate) WF).
  fold entries first column_ in Hrun.
  eexists. rewrite Hrun.
  rewrite (lineAfter_plain entries first Hplain).
  f_equal. f_equal. f_equal.
  unfold Stated.comparisons, Stated.expectedCoordinates.
  rewrite (expectedLines_plain entries first Hplain), map_map.
  generalize (seq 0 (List.length entries)). clear.
  induction entries as [|e entries IH]; intros [|k ks]; cbn; try reflexivity.
  now rewrite IH.
Qed.

(** The tidy sample has two plain entries: the closing braces are expected
    on line 4. *)
Lemma validateParams_plain_lines_witness :
  exists ds,
    validateParams (Sample.rule Layouts.tidyLines) (Sample.fresh Layouts.tidy)
    = Returned 4
        (mkState Layouts.tidy ([] ++ ds)
           [ Comparison.make (mkPosition 2 2) (mkPosition 2 2);
             Comparison.make (mkPosition 3 2) (mkPosition 3 2) ]).
Proof.
  apply (validateParams_plain_lines (Sample.rule Layouts.tidyLines)
           Layouts.tidy [] []).
  - reflexivity.
  - repeat constructor.
  - repeat constructor.
Defined.

(** X9.  On a node whose path is not marked synthetic, checking the
    arguments twice in succession tells the same story twice: the second
    run returns the same line, logs the same diagnostics again and repeats
    the same comparisons, and the node is untouched. *)
Theorem validateParams_twice
    (this : Rule.t) (node : Node) (lg : list Diagnostic.t)
    (cmp : list Comparison.t) :
  Stated.synthetic node = false ->
  Forall (fun e => Stated.wellFormed e = true) (Stated.sequence node) ->
  exists expectedLine ds cs,
    validateParams this (mkState node lg cmp)
    = Returned expectedLine (mkState node (lg ++ ds) (cmp ++ cs))
    /\ (validateParams this ;;; validateParams this) (mkState node lg cmp)
       = Returned expectedLine
           (mkState node ((lg ++ ds) ++ ds) ((cmp ++ cs) ++ cs)).
Proof.
  intros Hsyn WF.
  pose proof (validateParams_run this node) as Hrun.
  rewrite Hsyn in Hrun. cbn [andb] in Hrun.
  eexists _, _, _. split.
  - apply Hrun; [discriminate | exact WF].
  - unfold bind. rewrite Hrun by (discriminate || exact WF).
    apply Hrun; [discriminate | exact WF].
Qed.

Lemma validateParams_twice_witness :
  exists expectedLine ds cs,
    validateParams (Sample.rule Sample.contactLines)
                   (Sample.fresh Sample.contact)
    = Returned expectedLine (mkState Sample.contact ([] ++ ds) ([] ++ cs))
    /\ (validateParams (Sample.rule Sample.contactLines) ;;;
        validateParams (Sample.rule Sample.contactLines))
         (Sample.fresh Sample.contact)
       = Returned expectedLine
           (mkState Sample.contact (([] ++ ds) ++ ds) (([] ++ cs) ++ cs)).
Proof.
  apply (validateParams_twice (Sample.rule Sample.contactLines)
           Sample.contact [] []).
  - reflexivity.
  - repeat constructor.
Defined.

(** X10.  On a block form whose path is marked synthetic the correction is
    applied again by every run: after two runs of [validateParams] in
    succession the recorded start column of the first positional argument
    is two less than it was, everything else being as before. *)
Theorem validateParams_correction_accumulates
    (this : Rule.t) (path : Path.t) (first : Param.t) (rest : list Param.t)
    (hash : Hash.t) (program : Program.t) (loc : Loc.t)
    (lg : list Diagnostic.t) (cmp : list Comparison.t) :
  let node := BlockStatement path (first :: rest) hash program loc in
  isSynthetic path = true ->
  Forall (fun e => Stated.wellFormed e = true) (Stated.sequence node) ->
  tree (finalState ((validateParams this ;;; validateParams this)
                      (mkState node lg cmp)))
  = BlockStatement path
      (Param.decrementStartColumn (Param.decrementStartColumn first) :: rest)
      hash program loc
  /\ column (Loc.start (Param.loc (Param.decrementStartColumn
                                     (Param.decrementStartColumn first))))
     = column (Loc.start (Param.loc first)) - 2.
Proof.
  intros node Hsyn WF. subst node. split.
  - pose proof (validateParams_run this
                  (BlockStatement path (first :: rest) hash program loc)
                  lg cmp) as Hrun.
    cbn [Stated.synthetic Stated.isBlock] in Hrun.
    rewrite Hsyn in Hrun. cbn [andb Stated.corrected] in Hrun.
    assert (WF' : Forall (fun e => Stated.wellFormed e = true)
                    (Stated.sequence
                       (BlockStatement path
                          (Param.decrementStartColumn first :: rest)
                          hash program loc))).
    { cbn [Stated.sequence map app] in *.
      inversion WF as [|? ? Hfirst Hrest]; subst.
      constructor; [|exact Hrest]. exact Hfirst. }
    specialize (Hrun ltac:(discriminate) WF').
    unfold bind. rewrite Hrun. rewrite validateParams_tree.
    cbn [tree Stated.synthetic Stated.isBlock Stated.corrected].
    rewrite Hsyn. reflexivity.
  - cbn. lia.
Qed.

(** On the rewritten dotted block the written path, recorded at column 3,
    ends up at column 1. *)
Lemma validateParams_correction_accumulates_witness :
  tree (finalState
          ((validateParams (Sample.rule Sample.dottedBlockLines) ;;;
            validateParams (Sample.rule Sample.dottedBlockLines))
             (Sample.fresh Sample.dottedBlock)))
  = BlockStatement
      (Path.make "component" Sample.syntheticLoc)
      [ Sample.pathExpression "form.field" (Sample.at_ 1 1 1 13) ]
      (Hash.make [ Sample.hashPair "name" (Sample.at_ 2 2 2 12)
                                   "PathExpression" (Sample.at_ 2 7 2 12) ]
                 (Sample.at_ 2 2 2 12))
      (Program.make (Sample.at_ 3 12 5 0) (Some [ "field" ]))
      (Sample.at_ 1 0 5 15).
Proof.
  refine (proj1 (validateParams_correction_accumulates
                   (Sample.rule Sample.dottedBlockLines)
                   (Path.make "component" Sample.syntheticLoc)
                   (Sample.pathExpression "form.field" (Sample.at_ 1 3 1 13))
                   []
                   (Hash.make
                      [ Sample.hashPair "name" (Sample.at_ 2 2 2 12)
                          "PathExpression" (Sample.at_ 2 7 2 12) ]
                      (Sample.at_ 2 2 2 12))
                   (Program.make (Sample.at_ 3 12 5 0) (Some [ "field" ]))
                   (Sample.at_ 1 0 5 15) [] [] eq_refl _)).
  repeat constructor.
Defined.

(** ** What a visit does to the log *)

Lemma quiet_ret {A} (a : A) : quiet (ret a).
Proof. now intros s. Qed.

Lemma quiet_throw {A} e : quiet (@throw A e).
Proof. now intros s. Qed.

Lemma quiet_prop {A} reading (o : option A) : quiet (prop reading o).
Proof. now destruct o; intros s. Qed.

Lemma quiet_thisNode : quiet thisNode.
Proof. now intros s. Qed.

Lemma quiet_bind {A B} (m : M A) (k : A -> M B) :
  quiet m -> (forall a, quiet (k a)) -> quiet (bind m k).
Proof.
  intros Hm Hk s. unfold bind.
  destruct (Hm s) as (Hl & Hc & Ht).
  destruct (m s) as [a s'|e s']; cbn [finalState] in *.
  - destruct (Hk a s') as (Hl' & Hc' & Ht'). repeat split; congruence.
  - auto.
Qed.

Lemma quiet_valueEndLine v : quiet (valueEndLine v).
Proof. destruct v; cbn; auto using quiet_ret, quiet_throw. Qed.

Lemma quiet_getWhiteSpaceLength statement :
  quiet (getWhiteSpaceLength statement).
Proof.
  unfold getWhiteSpaceLength. apply quiet_bind; [apply quiet_prop|].
  intros. apply quiet_ret.
Qed.

Lemma decrementFirstParamColumn_loc (n n' : Node) :
  Node.decrementFirstParamColumn n = Some n' -> Node.loc n' = Node.loc n.
Proof.
  destruct n as [p [|first rest] h pr l | p [|first rest] h l | t a c sc l];
    cbn; intros [= <-]; reflexivity.
Qed.

Lemma orderly_quiet {A} this (m : M A) : quiet m -> orderly this m.
Proof.
  intros Hm s. destruct (Hm s) as (Hl & Hc & Ht).
  exists [], [], []. rewrite !app_nil_r. repeat split; auto.
Qed.

Lemma orderly_bind {A B} this (m : M A) (k : A -> M B) :
  orderly this m -> (forall a, orderly this (k a)) ->
  orderly this (bind m k).
Proof.
  intros Hm Hk s. unfold bind.
  destruct (Hm s) as (ds & cs & rest & Hl & Hc & Ht & Hsrc & Hpos & Hret).
  destruct (m s) as [a s'|e s'] eqn:Hrun; cbn [finalState] in *.
  - rewrite (Hret a s' eq_refl), app_nil_r in Hpos.
    destruct (Hk a s')
      as (ds' & cs' & rest' & Hl' & Hc' & Ht' & Hsrc' & Hpos' & Hret').
    exists (ds ++ ds'), (cs ++ cs'), rest'.
    rewrite Hl', Hc', Hl, Hc, Ht', Ht, !app_assoc.
    repeat split; try reflexivity.
    + apply Forall_app. split; [exact Hsrc|]. now rewrite Ht in Hsrc'.
    + rewrite filter_app, !map_app, Hpos, Hpos', app_assoc. reflexivity.
    + exact Hret'.
  - exists ds, cs, rest. repeat split; auto. discriminate.
Qed.

(** One comparison followed, when it failed, by one diagnostic that points
    at the coordinate found. *)
Lemma checked_at {A} this (o : Outcome A) (s : RuleState) d expected found :
  Geometry.position d = found ->
  Diagnostic.source d
  = Rule.sourceForNode this (Span.ofLoc (Node.loc (tree s))) ->
  Node.loc (tree (finalState o)) = Node.loc (tree s) ->
  compared (finalState o)
  = compared s ++ [Comparison.make expected found] ->
  (logged (finalState o)
   = logged s ++ (if differs found expected then [d] else [])
   \/ (logged (finalState o) = logged s
       /\ forall a s', o <> Returned a s')) ->
  exists ds cs rest,
    logged (finalState o) = logged s ++ ds
    /\ compared (finalState o) = compared s ++ cs
    /\ Node.loc (tree (finalState o)) = Node.loc (tree s)
    /\ Forall (fun d => Diagnostic.source d
                        = Rule.sourceForNode this
                            (Span.ofLoc (Node.loc (tree s)))) ds
    /\ map Comparison.actual (filter Geometry.failed cs)
       = map Geometry.position ds ++ rest
    /\ (forall a s', o = Returned a s' -> rest = []).
Proof.
  intros Hpos Hsrc Ht Hc Hl.
  assert (Hfailed :
    filter Geometry.failed [Comparison.make expected found]
    = if differs found expected then [Comparison.make expected found]
      else []) by reflexivity.
  destruct Hl as [Hl | [Hl Hthrown]].
  - exists (if differs found expected then [d] else []),
           [Comparison.make expected found], [].
    rewrite Hfailed, app_nil_r.
    repeat split; auto.
    + destruct (differs found expected); repeat constructor. exact Hsrc.
    + destruct (differs found expected); cbn; [now rewrite Hpos|reflexivity].
  - exists [], [Comparison.make expected found],
           (map Comparison.actual
                (filter Geometry.failed [Comparison.make expected found])).
    rewrite app_nil_r. repeat split; auto.
    intros a s' Hrun. now apply Hthrown in Hrun.
Qed.

Lemma orderly_validateCloseBrace this expectedStartLine :
  orderly this (validateCloseBrace this expectedStartLine).
Proof.
  intros s.
  destruct (validateCloseBrace_run this expectedStartLine (tree s))
    as (d & Hpos & Hsrc & Hrun).
  specialize (Hrun (logged s) (compared s)). rewrite state_eta in Hrun.
  apply (checked_at this _ s d
           (Geometry.atStartColumn (tree s) expectedStartLine)
           (Geometry.closeBraceActual (tree s)));
    rewrite ?Hrun; cbn [finalState tree logged compared]; auto.
Qed.

Lemma orderly_validateClosingTag this expectedStartLine :
  orderly this (validateClosingTag this expectedStartLine).
Proof.
  intros s. destruct (Node.tag (tree s)) as [tag|] eqn:Htag.
  - destruct (validateClosingTag_run this expectedStartLine (tree s) tag Htag)
      as (d & Hpos & Hsrc & Hrun).
    specialize (Hrun (logged s) (compared s)). rewrite state_eta in Hrun.
    apply (checked_at this _ s d
             (Geometry.atStartColumn (tree s) expectedStartLine)
             (Geometry.closingTagActual (tree s) tag));
      rewrite ?Hrun; cbn [finalState tree logged compared]; auto.
  - assert (Hrun : validateClosingTag this expectedStartLine s
                   = Thrown (TypeError "node.tag.length") s).
    { unfold validateClosingTag. unfold bind at 1. unfold thisNode at 1.
      now rewrite Htag. }
    exists [], [], []. rewrite Hrun. cbn [finalState].
    rewrite !app_nil_r. repeat split; auto.
Qed.

Ltac quiet_step :=
  repeat first
    [ apply quiet_bind; [|intros ?]
    | match goal with
      | |- quiet (if ?b then _ else _) => destruct b
      | |- quiet (match ?o with Some _ => _ | None => _ end) => destruct o
      end
    | solve [auto using quiet_ret, quiet_throw, quiet_prop, quiet_thisNode,
               quiet_valueEndLine, quiet_getWhiteSpaceLength] ].

Lemma quiet_getBlockParamStartLoc this : quiet (getBlockParamStartLoc this).
Proof.
  unfold getBlockParamStartLoc.
  apply quiet_bind; [apply quiet_thisNode|].
  intros [p ps h pr l | p ps h l | t a c sc l]; quiet_step.
Qed.

(** [getBlockParamStartLoc] only reads. *)
Lemma getBlockParamStartLoc_state this s :
  finalState (getBlockParamStartLoc this s) = s.
Proof.
  pose proof (keepsTree_getBlockParamStartLoc this s) as Ht.
  destruct (quiet_getBlockParamStartLoc this s) as (Hl & Hc & _).
  destruct (finalState (getBlockParamStartLoc this s)), s. cbn in *.
  congruence.
Qed.

Lemma orderly_validateBlockParams this : orderly this (validateBlockParams this).
Proof.
  intros s.
  pose proof (getBlockParamStartLoc_state this s) as Hstate.
  destruct (tree s) as [p ps h pr l | p ps h l | t a c sc l] eqn:Hnode.
  - pose proof (validateBlockParams_run this p ps h pr l (logged s)
                  (compared s)) as Hrun.
    cbv zeta in Hrun. rewrite <- Hnode, state_eta in Hrun.
    destruct (getBlockParamStartLoc this s) as [location s'|e s'];
      cbn [finalState] in Hstate; subst s'.
    + specialize (Hrun eq_refl).
      destruct (Expectation.actual location) as [actual|].
      * destruct Hrun as (d & Hpos & Hsrc & Hrun).
        assert (Hloc : Node.loc (tree s) = l) by now rewrite Hnode.
        rewrite <- Hloc in Hsrc. rewrite <- Hnode.
        apply (checked_at this _ s d (Expectation.expected location) actual);
          rewrite ?Hrun; cbn [finalState tree logged compared]; auto.
      * exists [], [], []. rewrite Hrun. cbn [finalState].
        rewrite !app_nil_r. repeat split; auto. now rewrite Hnode.
    + exists [], [], []. rewrite Hrun. cbn [finalState].
      rewrite !app_nil_r. repeat split; auto. now rewrite Hnode.
  - assert (Hrun : validateBlockParams this s
                   = Thrown (TypeError "node.program.loc") s).
    { unfold validateBlockParams, getBlockParamStartLoc.
      unfold bind at 1. unfold bind at 1. unfold thisNode at 1.
      now rewrite Hnode. }
    exists [], [], []. rewrite Hrun. cbn [finalState].
    rewrite !app_nil_r. repeat split; auto. now rewrite Hnode.
  - assert (Hrun : validateBlockParams this s
                   = Thrown (TypeError "node.program.loc") s).
    { unfold validateBlockParams, getBlockParamStartLoc.
      unfold bind at 1. unfold bind at 1. unfold thisNode at 1.
      now rewrite Hnode. }
    exists [], [], []. rewrite Hrun. cbn [finalState].
    rewrite !app_nil_r. repeat split; auto. now rewrite Hnode.
Qed.

Lemma eachParam_cases this paramType namePath column_ param expectedLine s :
  let found := Loc.start (Param.loc param) in
  let expected := mkPosition expectedLine column_ in
  let cs := compared s ++ [Comparison.make expected found] in
  eachParam this paramType namePath column_ param expectedLine s
  = if differs found expected then
      match (if truthy (getProperty param namePath)
             then Some (toString (getProperty param namePath))
             else option_map Path.original (Param.path param)) with
      | Some paramName =>
          advanceLine param expectedLine
            (mkState (tree s)
               (logged s
                ++ [Diagnostic.make
                      (paramMessage paramType paramName found expected)
                      (line found) (column found)
                      (Rule.sourceForNode this
                         (Span.ofLoc (Node.loc (tree s))))])
               cs)
      | None =>
          Thrown (TypeError "param.path.original")
                 (mkState (tree s) (logged s) cs)
      end
    else advanceLine param expectedLine (mkState (tree s) (logged s) cs).
Proof.
  intros found expected cs. unfold eachParam.
  unfold bind at 1. unfold mismatch at 1. fold found expected cs.
  destruct (differs found expected); [|reflexivity].
  destruct (truthy (getProperty param namePath)); [reflexivity|].
  destruct (Param.path param); reflexivity.
Qed.

Lemma quiet_advanceLine param expectedLine :
  quiet (advanceLine param expectedLine).
Proof. unfold advanceLine. quiet_step. Qed.

Lemma orderly_eachParam this paramType namePath column_ param expectedLine :
  orderly this (eachParam this paramType namePath column_ param expectedLine).
Proof.
  intros s. rewrite eachParam_cases.
  set (found := Loc.start (Param.loc param)).
  set (expected := mkPosition expectedLine column_).
  pose (silent := Diagnostic.make EmptyString (line found) (column found)
                    (Rule.sourceForNode this
                       (Span.ofLoc (Node.loc (tree s))))).
  assert (Heta : forall message source,
             Geometry.position
               (Diagnostic.make message (line found) (column found) source)
             = found) by (intros; now destruct found).
  destruct (differs found expected) eqn:Hdiffers.
  - destruct (if truthy (getProperty param namePath)
              then Some (toString (getProperty param namePath))
              else option_map Path.original (Param.path param))
      as [paramName|].
    + match goal with
      | |- context [advanceLine _ _ ?s2] =>
          destruct (quiet_advanceLine param expectedLine s2) as (Hl & Hc & Ht)
      end.
      match goal with
      | |- context [logged s ++ [?d]] =>
          apply (checked_at this _ s d expected found)
      end; auto.
      left. now rewrite Hl, Hdiffers.
    + apply (checked_at this _ s silent expected found); auto.
      * apply Heta.
      * right. split; [reflexivity|]. discriminate.
  - match goal with
    | |- context [advanceLine _ _ ?s2] =>
        destruct (quiet_advanceLine param expectedLine s2) as (Hl & Hc & Ht)
    end.
    apply (checked_at this _ s silent expected found); auto.
    + apply Heta.
    + left. now rewrite Hl, Hdiffers, app_nil_r.
Qed.

Lemma orderly_forEach this params : forall callback expectedLine,
  (forall param l, orderly this (callback param l)) ->
  orderly this (forEach params callback expectedLine).
Proof.
  induction params as [|param rest IH]; intros callback expectedLine Hcb;
    cbn [forEach].
  - apply orderly_quiet, quiet_ret.
  - apply orderly_bind; [apply Hcb|]. intros l. now apply IH.
Qed.

Lemma orderly_iterateParams this ref type expectedLine column_ :
  orderly this (iterateParams this ref type expectedLine column_).
Proof.
  unfold iterateParams. apply orderly_bind.
  - apply orderly_quiet. intros s.
    match goal with
    | |- context [finalState (?m s)] => remember (m s) as o eqn:Ho
    end.
    destruct (type === "positional").
    + unfold bind at 1 in Ho. unfold bind at 1 in Ho.
      unfold thisNode at 1 in Ho.
      destruct (Node.path (tree s)) as [path|]; cbn [prop] in Ho;
        [|now subst o].
      unfold bind at 1 in Ho. unfold ret at 1 in Ho.
      destruct (isSynthetic path); [|now subst o].
      destruct (Node.type (tree s) === "BlockStatement"); [|now subst o].
      unfold bind at 1 in Ho.
      destruct (Node.decrementFirstParamColumn (tree s)) as [node'|] eqn:Hdec;
        cbn [prop] in Ho; [|now subst o].
      subst o. cbn. repeat split. now apply decrementFirstParamColumn_loc.
    + destruct (type === "htmlAttribute"); now subst o.
  - intros setup. apply orderly_bind; [apply orderly_quiet, quiet_thisNode|].
    intros node. apply orderly_bind; [apply orderly_quiet, quiet_prop|].
    intros array. apply orderly_forEach. intros. apply orderly_eachParam.
Qed.

Ltac orderly_step :=
  repeat first
    [ solve [auto using orderly_iterateParams, orderly_validateCloseBrace,
               orderly_validateClosingTag, orderly_validateBlockParams]
    | solve [apply orderly_quiet;
             auto using quiet_ret, quiet_throw, quiet_prop, quiet_thisNode]
    | match goal with
      | |- orderly _ (if ?b then _ else _) => destruct b
      | |- orderly _ (match ?o with Some _ => _ | None => _ end) => destruct o
      end
    | apply orderly_bind; [|intros ?] ].

Lemma orderly_validateParams this : orderly this (validateParams this).
Proof. unfold validateParams. orderly_step. Qed.

Lemma orderly_validateNonBlockForm this :
  orderly this (validateNonBlockForm this).
Proof.
  unfold validateNonBlockForm.
  pose proof (orderly_validateParams this). orderly_step.
Qed.

Lemma orderly_validateBlockForm this : orderly this (validateBlockForm this).
Proof.
  unfold validateBlockForm.
  pose proof (orderly_validateParams this). orderly_step.
Qed.

Lemma orderly_visitor this : orderly this (visitor this).
Proof.
  pose proof (orderly_validateParams this).
  pose proof (orderly_validateNonBlockForm this).
  pose proof (orderly_validateBlockForm this).
  unfold visitor. apply orderly_bind; [apply orderly_quiet, quiet_thisNode|].
  intros [p ps h pr l | p ps h l | t a c sc l].
  - unfold visitor_BlockStatement. orderly_step.
  - unfold visitor_MustacheStatement. orderly_step.
  - unfold visitor_ElementNode. orderly_step.
Qed.

Lemma filter_length_le {A} (f : A -> bool) (l : list A) :
  (List.length (filter f l) <= List.length l)%nat.
Proof. induction l as [|a l IH]; cbn; [lia|]. destruct (f a); cbn; lia. Qed.

(** X11.  A visit only ever appends.  Whatever node it is given, whatever
    the log already holds, and whether it returns or throws: the
    diagnostics logged before are still there, in place; the comparisons
    recorded before likewise; the node keeps its location; every new
    diagnostic carries the source text of the visited node; and there are
    never more new diagnostics than new comparisons. *)
Theorem visitor_only_appends (this : Rule.t) (s : RuleState) :
  exists ds cs,
    logged (finalState (visitor this s)) = logged s ++ ds
    /\ compared (finalState (visitor this s)) = compared s ++ cs
    /\ Node.loc (tree (finalState (visitor this s))) = Node.loc (tree s)
    /\ Forall (fun d => Diagnostic.source d
                        = Rule.sourceForNode this
                            (Span.ofLoc (Node.loc (tree s)))) ds
    /\ (List.length ds <= List.length cs)%nat.
Proof.
  destruct (orderly_visitor this s)
    as (ds & cs & rest & Hl & Hc & Ht & Hsrc & Hpos & _).
  exists ds, cs. repeat split; auto.
  pose proof (filter_length_le Geometry.failed cs) as Hle.
  apply (f_equal (@List.length _)) in Hpos.
  rewrite length_app, !length_map in Hpos. lia.
Qed.

(** X12.  When a visit returns, its diagnostics are exactly the failed
    comparisons: the new diagnostics point, one for one and in the same
    order, at the coordinates found by the new comparisons whose two sides
    differ.  So a visit that returns logs nothing if and only if every
    coordinate it compared was where it was expected. *)
Theorem visitor_reports_failed_comparisons
    (this : Rule.t) (s s' : RuleState) (result : option Z) :
  visitor this s = Returned result s' ->
  exists ds cs,
    logged s' = logged s ++ ds
    /\ compared s' = compared s ++ cs
    /\ map Geometry.position ds
       = map Comparison.actual (filter Geometry.failed cs)
    /\ (ds = [] <->
        Forall (fun c => Comparison.actual c = Comparison.expected c) cs).
Proof.
  intros Hrun.
  destruct (orderly_visitor this s)
    as (ds & cs & rest & Hl & Hc & _ & _ & Hpos & Hret).
  rewrite Hrun in Hl, Hc. cbn [finalState] in Hl, Hc.
  rewrite (Hret _ _ Hrun), app_nil_r in Hpos.
  exists ds, cs. repeat split; auto.
  - intros ->. cbn in Hpos.
    apply Forall_forall. intros c Hin.
    apply differs_false_iff.
    destruct (differs (Comparison.actual c) (Comparison.expected c)) eqn:Hd;
      [|reflexivity].
    assert (Hf : In c (filter Geometry.failed cs))
      by (apply filter_In; split; assumption).
    destruct (filter Geometry.failed cs); [contradiction|discriminate].
  - intros Hall.
    assert (Hnone : filter Geometry.failed cs = []).
    { clear -Hall. induction Hall as [|c cs Hc _ IH]; [reflexivity|].
      cbn [filter]. unfold Geometry.failed at 1.
      now rewrite (proj2 (differs_false_iff _ _) Hc). }
    rewrite Hnone in Hpos. now destruct ds.
Qed.

(** The inline sample with the misplaced named argument: one diagnostic,
    at L3:C4, for three comparisons. *)
Lemma visitor_reports_failed_comparisons_witness :
  exists ds cs,
    logged (finalState (visitor (Sample.rule Sample.contactLines)
                                (Sample.fresh Sample.contact)))
    = [] ++ ds
    /\ compared (finalState (visitor (Sample.rule Sample.contactLines)
                                     (Sample.fresh Sample.contact)))
       = [] ++ cs
    /\ map Geometry.position ds
       = map Comparison.actual (filter Geometry.failed cs)
    /\ (ds = [] <->
        Forall (fun c => Comparison.actual c = Comparison.expected c) cs).
Proof.
  apply (visitor_reports_failed_comparisons
           (Sample.rule Sample.contactLines) (Sample.fresh Sample.contact)
           _ (Some 4)).
  reflexivity.
Defined.


(** ** Visits that return *)

Lemma comparisons_length entries first column_ :
  List.length (Stated.comparisons entries
                 (Stated.expectedCoordinates entries first column_))
  = List.length entries.
Proof.
  unfold Stated.comparisons.
  rewrite length_map, length_combine, expectedCoordinates_length. lia.
Qed.

Lemma reports_length this node entries first column_ :
  (List.length (Stated.reports this node entries
                  (Stated.expectedCoordinates entries first column_))
   <= List.length entries)%nat.
Proof.
  unfold Stated.reports. rewrite length_map.
  etransitivity; [apply filter_length_le|].
  rewrite length_combine, expectedCoordinates_length. lia.
Qed.

(** X14.  The visit of an inline invocation whose arguments all have a
    display name never throws and never touches the node.  With the gate
    closed it compares nothing and returns the node's end line; with the
    gate open and no argument it compares nothing and returns nothing;
    with the gate open and [n] arguments it makes [n + 1] comparisons, the
    arguments and then the closing braces, logs at most as many diagnostics
    and returns the line expected for the closing braces. *)
Theorem visitor_inline_returns
    (this : Rule.t) (path : Path.t) (params : list Param.t) (hash : Hash.t)
    (loc : Loc.t) (lg : list Diagnostic.t) (cmp : list Comparison.t) :
  let node := MustacheStatement path params hash loc in
  let entries := Stated.sequence node in
  let first := if isSynthetic path then line (Loc.start loc)
               else line (Loc.start loc) + 1 in
  let gate := canApplyRule node "MustacheStatement" (Rule.config this) in
  Forall (fun e => Stated.wellFormed e = true) entries ->
  exists ds cs,
    visitor this (mkState node lg cmp)
    = Returned
        (if gate then
           if Geometry.hasArguments params hash
           then Some (Stated.lineAfter entries first) else None
         else Some (line (Loc.end_ loc)))
        (mkState node (lg ++ ds) (cmp ++ cs))
    /\ List.length cs
       = (if gate && Geometry.hasArguments params hash
          then S (List.length entries) else 0%nat)
    /\ (List.length ds <= List.length cs)%nat.
Proof.
  intros node entries first gate WF.
  unfold visitor. unfold bind at 1. unfold thisNode at 1. cbn [tree node].
  unfold visitor_MustacheStatement. unfold bind at 1. unfold thisNode at 1.
  cbn [tree]. fold node.
  change (canApplyRule node (Node.type node) (Rule.config this)) with gate.
  destruct gate; cbn [andb].
  2: { exists [], []. rewrite !app_nil_r. repeat split. cbn. lia. }
  unfold validateNonBlockForm. unfold bind at 1. unfold thisNode at 1.
  cbn [tree node Node.params Node.hash prop].
  unfold bind at 1. unfold ret at 1. unfold bind at 1. unfold ret at 1.
  fold (Geometry.hasArguments params hash). fold node.
  destruct (Geometry.hasArguments params hash).
  2: { exists [], []. rewrite !app_nil_r. repeat split. cbn. lia. }
  pose proof (validateParams_run this node lg cmp) as Hrun.
  cbn [Stated.isBlock node] in Hrun. rewrite andb_false_r in Hrun.
  cbn [Stated.synthetic node Node.loc] in Hrun.
  fold node entries in Hrun.
  replace (if isSynthetic path then line (Loc.start loc)
           else line (Loc.start loc) + 1) with first in Hrun by reflexivity.
  specialize (Hrun ltac:(discriminate) WF).
  unfold bind at 1. rewrite Hrun.
  destruct (validateCloseBrace_run this (Stated.lineAfter entries first) node)
    as (d & _ & _ & Hclose).
  unfold bind at 1. rewrite Hclose. unfold ret.
  rewrite <- !app_assoc. eexists _, _.
  split; [reflexivity|]. rewrite !length_app, comparisons_length.
  split; [cbn; lia|].
  pose proof (reports_length this node entries first
                (column (Loc.start loc)
                 + Options.indentation (Rule.config this))) as Hle.
  cbn [Node.loc node] in *.
  destruct (differs _ _); cbn [List.length]; lia.
Qed.

(** The tidy sample: three comparisons, no diagnostic, line 4 returned. *)
Lemma visitor_inline_returns_witness :
  exists ds cs,
    visitor (Sample.rule Layouts.tidyLines) (Sample.fresh Layouts.tidy)
    = Returned (Some 4) (mkState Layouts.tidy ([] ++ ds) ([] ++ cs))
    /\ List.length cs = 3%nat
    /\ (List.length ds <= List.length cs)%nat.
Proof.
  apply (visitor_inline_returns (Sample.rule Layouts.tidyLines)
           (Path.make "contact-details" (Sample.at_ 1 2 1 17))
           [ Sample.pathExpression "age" (Sample.at_ 2 2 2 5) ]
           (Hash.make [ Sample.hashPair "firstName" (Sample.at_ 3 2 3 21)
                                        "PathExpression" (Sample.at_ 3 12 3 21) ]
                      (Sample.at_ 3 2 3 21))
           (Sample.at_ 1 0 4 2) [] []).
  repeat constructor.
Defined.

Lemma lastOf_nonEmpty {A} (l : list A) :
  nonEmpty l = true -> exists a, lastOf l = Some a.
Proof.
  rewrite lastOf_nth_error. destruct l as [|a l]; [discriminate|].
  intros _. cbn [List.length Nat.sub]. rewrite Nat.sub_0_r.
  destruct (nth_error (a :: l) (List.length l)) eqn:E; [now eexists|].
  apply nth_error_None in E. cbn in E. lia.
Qed.

(** X15.  The visit of a markup element whose attributes all have a name
    never throws and never touches the element.  With element processing
    off it does nothing and returns nothing.  With it on it returns the
    element's end line; if the gate is open it first walks the attributes
    and checks the closing bracket, when there are attributes, and then
    checks the closing tag against the end line of the last child (one line
    further when that child is a block form), when there are children:
    [n + 1] comparisons for [n >= 1] attributes, plus one for the closing
    tag. *)
Theorem visitor_element_returns
    (this : Rule.t) (tag : string) (attributes : list Param.t)
    (children : list Child.t) (selfClosing : bool) (loc : Loc.t)
    (lg : list Diagnostic.t) (cmp : list Comparison.t) :
  let node := ElementNode tag attributes children selfClosing loc in
  let enabled := isEnabled (Options.processElements (Rule.config this)) in
  let gate := canApplyRule node "ElementNode" (Rule.config this) in
  Forall (fun e => Stated.wellFormed e = true) (Stated.sequence node) ->
  exists ds cs,
    visitor this (mkState node lg cmp)
    = Returned (if enabled then Some (line (Loc.end_ loc)) else None)
               (mkState node (lg ++ ds) (cmp ++ cs))
    /\ List.length cs
       = (if enabled && gate
          then ((if nonEmpty attributes then S (List.length attributes)
                 else 0) + (if nonEmpty children then 1 else 0))%nat
          else 0%nat)
    /\ (List.length ds <= List.length cs)%nat
    /\ (enabled && gate = true ->
        forall lastChild, lastOf children = Some lastChild ->
        exists before,
          cs = before
               ++ [Comparison.make
                     (Geometry.atStartColumn node
                        (Geometry.closingTagLine lastChild))
                     (Geometry.closingTagActual node tag)]).
Proof.
  intros node enabled gate WF.
  unfold visitor. unfold bind at 1. unfold thisNode at 1. cbn [tree node].
  unfold visitor_ElementNode. fold enabled.
  destruct enabled; cbn [andb].
  2: { exists [], []. rewrite !app_nil_r. repeat split; [cbn; lia|].
       discriminate. }
  unfold bind at 1. unfold thisNode at 1. cbn [tree]. fold node.
  change (canApplyRule node (Node.type node) (Rule.config this)) with gate.
  destruct gate.
  2: { exists [], []. unfold bind, ret. rewrite !app_nil_r.
       repeat split; [cbn; lia|]. discriminate. }
  (* the attributes and the closing bracket *)
  assert (Hopen : exists ds1 cs1,
             (forall (k : unit -> M unit),
                 bind (if nonEmpty attributes
                       then expectedCloseBraceLine <- validateParams this ;;
                            validateCloseBrace this expectedCloseBraceLine
                       else ret tt) k (mkState node lg cmp)
                 = k tt (mkState node (lg ++ ds1) (cmp ++ cs1)))
             /\ List.length cs1
                = (if nonEmpty attributes then S (List.length attributes)
                   else 0%nat)
             /\ (List.length ds1 <= List.length cs1)%nat).
  { destruct (nonEmpty attributes).
    - pose proof (validateParams_run this node lg cmp) as Hrun.
      cbn [Stated.isBlock Stated.synthetic node andb] in Hrun.
      fold node in Hrun. specialize (Hrun ltac:(discriminate) WF).
      destruct (validateCloseBrace_run this
                  (Stated.lineAfter (Stated.sequence node)
                     (line (Loc.start (Node.loc node)) + 1)) node)
        as (d & _ & _ & Hclose).
      eexists _, _. split; [|split].
      + intros k. unfold bind at 1. unfold bind at 1. rewrite Hrun.
        rewrite Hclose. rewrite <- !app_assoc. reflexivity.
      + rewrite length_app, comparisons_length. cbn [Stated.sequence node].
        rewrite length_map. cbn. lia.
      + rewrite !length_app, comparisons_length.
        pose proof (reports_length this node (Stated.sequence node)
                      (line (Loc.start (Node.loc node)) + 1)
                      (column (Loc.start (Node.loc node))
                       + Options.indentation (Rule.config this))) as Hle.
        destruct (differs _ _); cbn [List.length]; lia.
    - exists [], []. rewrite !app_nil_r. split; [|split].
      + intros k. reflexivity.
      + reflexivity.
      + cbn. lia. }
  destruct Hopen as (ds1 & cs1 & Hopen & Hcs1 & Hds1).
  cbn [Node.attributes Node.children prop node].
  unfold bind at 1. unfold bind at 1. unfold ret at 1. fold node.
  rewrite Hopen.
  unfold bind at 1. unfold ret at 1.
  destruct (nonEmpty children) eqn:Hchildren.
  - destruct (lastOf_nonEmpty children Hchildren) as [lastChild Hlast].
    rewrite Hlast. unfold bind at 1. cbn [prop]. unfold ret at 1.
    destruct (validateClosingTag_run this (Geometry.closingTagLine lastChild)
                node tag eq_refl) as (d & _ & _ & Hclose).
    unfold Geometry.closingTagLine in Hclose. rewrite Hclose.
    unfold ret. rewrite <- !app_assoc. eexists _, _.
    split; [reflexivity|]. rewrite !length_app, Hcs1.
    split; [cbn; lia|]. split.
    + destruct (differs _ _); cbn [List.length]; lia.
    + intros _ lastChild' [= <-]. now exists cs1.
  - unfold ret. exists ds1, cs1. split; [reflexivity|].
    split; [rewrite Hcs1; lia|]. split; [exact Hds1|].
    intros _ lastChild Hlast.
    destruct children; [discriminate|discriminate].
Qed.

(** The laid-out element of the sample: three comparisons, the last one for
    the closing tag, expected and found at L5:C0. *)
Lemma visitor_element_returns_witness :
  exists ds cs,
    visitor (Sample.rule Layouts.sectionLines) (Sample.fresh Layouts.section_)
    = Returned (Some 5) (mkState Layouts.section_ ([] ++ ds) ([] ++ cs))
    /\ List.length cs = 3%nat
    /\ (List.length ds <= List.length cs)%nat
    /\ (true = true ->
        forall lastChild,
          lastOf [ Child.make "TextNode" (Sample.at_ 3 1 5 0) ]
          = Some lastChild ->
          exists before,
            cs = before
                 ++ [Comparison.make
                       (Geometry.atStartColumn Layouts.section_
                          (Geometry.closingTagLine lastChild))
                       (mkPosition 5 0)]).
Proof.
  apply (visitor_element_returns (Sample.rule Layouts.sectionLines)
           "section"
           [ Sample.attrNode "class" (Sample.at_ 2 2 2 9) "TextNode"
                             (Sample.at_ 2 8 2 9) ]
           [ Child.make "TextNode" (Sample.at_ 3 1 5 0) ]
           false (Sample.at_ 1 0 5 10) [] []).
  repeat constructor.
Defined.

Lemma corrected_block path params hash program loc :
  exists params',
    Stated.corrected (BlockStatement path params hash program loc)
    = BlockStatement path params' hash program loc
    /\ Stated.tail params' hash = Stated.tail params hash
    /\ List.length params' = List.length params.
Proof.
  destruct params as [|first rest].
  - now exists [].
  - exists (Param.decrementStartColumn first :: rest).
    split; [reflexivity|]. split; [|reflexivity].
    unfold Stated.tail. destruct (Hash.pairs hash); [|reflexivity].
    cbn [List.length Nat.sub]. rewrite Nat.sub_0_r.
    now destruct (List.length rest).
Qed.

Lemma validateBlockParams_returns
    (this : Rule.t) (path : Path.t) (params : list Param.t) (hash : Hash.t)
    (program : Program.t) (loc : Loc.t) (lg : list Diagnostic.t)
    (cmp : list Comparison.t) :
  let body := Loc.start (Program.loc program) in
  (forall tail,
      Stated.tail params hash = Some tail ->
      line tail <= line body
      /\ (line tail < line body ->
          Geometry.trailingText this tail = EmptyString ->
          index (Rule.source this) (line body - 1) <> None)) ->
  exists ds c,
    validateBlockParams this
      (mkState (BlockStatement path params hash program loc) lg cmp)
    = Returned tt
        (mkState (BlockStatement path params hash program loc)
                 (lg ++ ds) (cmp ++ [c]))
    /\ (List.length ds <= 1)%nat.
Proof.
  intros body Hsafe.
  pose proof (validateBlockParams_run this path params hash program loc
                lg cmp) as Hrun.
  cbv zeta in Hrun.
  assert (Hdone : forall actual expected,
             (exists d : Diagnostic.t,
                 Geometry.position d = actual
                 /\ Diagnostic.source d
                    = Rule.sourceForNode this (Span.ofLoc loc)
                 /\ validateBlockParams this
                      (mkState (BlockStatement path params hash program loc)
                               lg cmp)
                    = Returned tt
                        (mkState (BlockStatement path params hash program loc)
                           (lg ++ if differs actual expected then [d] else [])
                           (cmp ++ [Comparison.make expected actual]))) ->
             exists ds c,
               validateBlockParams this
                 (mkState (BlockStatement path params hash program loc) lg cmp)
               = Returned tt
                   (mkState (BlockStatement path params hash program loc)
                            (lg ++ ds) (cmp ++ [c]))
               /\ (List.length ds <= 1)%nat).
  { intros actual expected (d & _ & _ & H). rewrite H. eexists _, _.
    split; [reflexivity|]. destruct (differs actual expected); cbn; lia. }
  destruct (Geometry.hasArguments params hash) eqn:Hargs.
  - apply hasArguments_tail in Hargs as [tail Htail].
    destruct (Hsafe tail Htail) as [Hle Hsource].
    rewrite (getBlockParamStartLoc_arguments this path params hash program
               loc lg cmp tail Htail) in Hrun.
    fold body in Hrun.
    destruct (line tail =? line body) eqn:Heq.
    { exact (Hdone _ _ (Hrun eq_refl)). }
    apply Z.eqb_neq in Heq.
    rewrite (proj2 (Z.ltb_lt _ _)) in Hrun by lia.
    destruct (Geometry.trailingText this tail === EmptyString) eqn:Htext;
      cbn [negb] in Hrun.
    + apply String.eqb_eq in Htext.
      destruct (index (Rule.source this) (line body - 1)) as [text|]
        eqn:Hindex.
      * exact (Hdone _ _ (Hrun eq_refl)).
      * exfalso. apply Hsource; [lia | exact Htext | reflexivity].
    + exact (Hdone _ _ (Hrun eq_refl)).
  - rewrite (getBlockParamStartLoc_no_arguments this path params hash
               program loc lg cmp Hargs) in Hrun.
    exact (Hdone _ _ (Hrun eq_refl)).
Qed.

(** X16.  The visit of a block form returns, with nothing as its result,
    whenever three things hold: every argument has a display name; a path
    marked synthetic comes with at least one positional argument if there
    are arguments at all; and, if the body declares block parameters, the
    arguments end on or above the body's start line and the source has that
    line when its indentation has to be measured.  With the gate closed
    nothing is compared; with the gate open there is one comparison for
    each argument and one for the block-parameter clause, if declared. *)
Theorem visitor_block_returns
    (this : Rule.t) (path : Path.t) (params : list Param.t) (hash : Hash.t)
    (program : Program.t) (loc : Loc.t) (lg : list Diagnostic.t)
    (cmp : list Comparison.t) :
  let node := BlockStatement path params hash program loc in
  let node' := if isSynthetic path then Stated.corrected node else node in
  let body := Loc.start (Program.loc program) in
  let gate := canApplyRule node "BlockStatement" (Rule.config this) in
  let arguments := Geometry.hasArguments params hash in
  Forall (fun e => Stated.wellFormed e = true) (Stated.sequence node') ->
  (isSynthetic path = true -> arguments = true -> params <> []) ->
  (Geometry.declaresBlockParams program = true ->
   forall tail,
     Stated.tail params hash = Some tail ->
     line tail <= line body
     /\ (line tail < line body ->
         Geometry.trailingText this tail = EmptyString ->
         index (Rule.source this) (line body - 1) <> None)) ->
  exists ds cs,
    visitor this (mkState node lg cmp)
    = Returned None
        (mkState (if gate && arguments then node' else node)
                 (lg ++ ds) (cmp ++ cs))
    /\ List.length cs
       = (if gate
          then ((if arguments
                 then List.length params + List.length (Hash.pairs hash)
                 else 0)
                + (if Geometry.declaresBlockParams program then 1 else 0))%nat
          else 0%nat)
    /\ (List.length ds <= List.length cs)%nat.
Proof.
  intros node node' body gate arguments WF Hfirst Hsafe.
  unfold visitor. unfold bind at 1. unfold thisNode at 1. cbn [tree node].
  unfold visitor_BlockStatement. unfold bind at 1. unfold thisNode at 1.
  cbn [tree]. fold node.
  change (canApplyRule node (Node.type node) (Rule.config this)) with gate.
  destruct gate; cbn [andb].
  2: { exists [], []. unfold ret. rewrite !app_nil_r. repeat split.
       cbn. lia. }
  unfold bind at 1. unfold validateBlockForm.
  unfold bind at 1. unfold thisNode at 1.
  cbn [tree node Node.params Node.hash prop].
  unfold bind at 1. unfold ret at 1. unfold bind at 1. unfold ret at 1.
  fold (Geometry.hasArguments params hash). fold arguments. fold node.
  (* the arguments *)
  assert (Hwalk : exists ds1 cs1,
             (forall (k : unit -> M unit),
                 bind (if arguments then validateParams this ;;; ret tt
                       else ret tt) k (mkState node lg cmp)
                 = k tt (mkState (if arguments then node' else node)
                                 (lg ++ ds1) (cmp ++ cs1)))
             /\ List.length cs1
                = (if arguments
                   then List.length params + List.length (Hash.pairs hash)
                   else 0)%nat
             /\ (List.length ds1 <= List.length cs1)%nat).
  { destruct arguments eqn:Hargs.
    - pose proof (validateParams_run this node lg cmp) as Hrun.
      cbn [Stated.isBlock Stated.synthetic node] in Hrun.
      rewrite andb_true_r in Hrun. fold node in Hrun. fold node' in Hrun.
      assert (Hparams : isSynthetic path = true -> Some params <> Some [])
        by (intros Hsyn [= ->]; now apply (Hfirst Hsyn eq_refl)).
      specialize (Hrun Hparams WF).
      eexists _, _. split; [|split].
      + intros k. unfold bind at 1. unfold bind at 1. rewrite Hrun.
        reflexivity.
      + rewrite comparisons_length. subst node'.
        destruct (corrected_block path params hash program loc)
          as (params' & Hcorrected & _ & Hlen).
        fold node in Hcorrected.
        destruct (isSynthetic path); [rewrite Hcorrected|];
          cbn [Stated.sequence node]; rewrite length_app, !length_map;
          lia.
      + rewrite comparisons_length.
        apply (reports_length this node' (Stated.sequence node')).
    - exists [], []. rewrite !app_nil_r. split; [|split].
      + intros k. reflexivity.
      + reflexivity.
      + cbn. lia. }
  destruct Hwalk as (ds1 & cs1 & Hwalk & Hcs1 & Hds1).
  rewrite Hwalk. clear Hwalk.
  (* the block-parameter clause *)
  set (current := if arguments then node' else node).
  assert (Hcurrent : exists params',
             current = BlockStatement path params' hash program loc
             /\ Stated.tail params' hash = Stated.tail params hash).
  { subst current node'.
    destruct (corrected_block path params hash program loc)
      as (params' & Hcorrected & Htail & _).
    fold node in Hcorrected.
    destruct arguments; [destruct (isSynthetic path)|];
      [exists params'; now rewrite Hcorrected | now exists params
      | now exists params]. }
  destruct Hcurrent as (params' & Hcurrent & Htail).
  unfold bind at 1. unfold thisNode at 1. cbn [tree].
  rewrite Hcurrent. cbn [Node.program prop].
  unfold bind at 1. unfold ret at 1.
  unfold Geometry.declaresBlockParams in *.
  destruct (Program.blockParams program) as [blockParams|].
  2: { unfold ret. exists ds1, cs1. split; [reflexivity|].
       split; [rewrite Hcs1; lia | exact Hds1]. }
  destruct (nonEmpty blockParams).
  2: { unfold ret. exists ds1, cs1. split; [reflexivity|].
       split; [rewrite Hcs1; lia | exact Hds1]. }
  destruct (validateBlockParams_returns this path params' hash program loc
              (lg ++ ds1) (cmp ++ cs1))
    as (ds2 & c & Hclause & Hds2).
  { rewrite Htail. exact (Hsafe eq_refl). }
  rewrite Hclause. unfold ret. rewrite <- !app_assoc.
  eexists _, _. split; [reflexivity|].
  rewrite !length_app, Hcs1. cbn [List.length]. split; lia.
Qed.

(** The laid-out block sample: three comparisons, two arguments and the
    clause, and no diagnostic. *)
Lemma visitor_block_returns_witness :
  exists ds cs,
    visitor (Sample.rule Sample.employeeLines) (Sample.fresh Sample.employee)
    = Returned None (mkState Sample.employee ([] ++ ds) ([] ++ cs))
    /\ List.length cs = 3%nat
    /\ (List.length ds <= List.length cs)%nat.
Proof.
  apply (visitor_block_returns (Sample.rule Sample.employeeLines)
           Sample.employeePath Sample.employeeParams Sample.employeeHash
           Sample.employeeBody (Sample.at_ 1 0 6 21) [] []).
  - repeat constructor.
  - discriminate.
  - intros _ tail [= <-]. split; [cbn; lia|]. intros _ _. discriminate.
Defined.

(** ** More on the configuration and the gate *)

(** X17.  [parseConfig] raises exactly for [null] and for the values whose
    [typeof] is none of ["boolean"], ["object"] and ["undefined"]: numbers,
    strings, functions, symbols and big integers.  For [null] the [in]
    operator throws a [TypeError]; for the others the helper is asked for
    the usage message, and what is thrown is the error carrying that
    message, or whatever the helper itself throws.  Every boolean, every
    mapping, every array and the absent value are normalized without an
    exception. *)
Theorem parseConfig_raises_iff
    (createErrorMessage :
       string -> list string -> ConfigValue -> JSError + string)
    (ruleName : string) (config : ConfigValue) :
  let raised := parseConfig createErrorMessage ruleName config in
  ((exists e, raised = inl e)
   <-> (config = CNull
        \/ (typeof config <> "boolean" /\ typeof config <> "object"
            /\ typeof config <> "undefined")))
  /\ ((typeof config <> "boolean" /\ typeof config <> "object"
       /\ typeof config <> "undefined")
      <-> ((exists n, config = CNumber n) \/ (exists text, config = CString text)
           \/ config = CFunction \/ config = CSymbol
           \/ (exists n, config = CBigInt n)))
  /\ (config = CNull -> exists reading, raised = inl (TypeError reading))
  /\ (config <> CNull -> forall e, raised = inl e ->
      match createErrorMessage ruleName usageLines config with
      | inl thrown => e = thrown
      | inr errorMessage => e = Error errorMessage
      end).
Proof.
  cbv zeta. split; [split|split; [split|split]].
  - intros [e He].
    destruct config as [ | |[|]|n|text| | |m| |o]; cbn in He;
      try discriminate; auto; right; cbn; repeat split; discriminate.
  - intros [-> | (Hb & Ho & Hu)]; [cbn; eauto|].
    destruct config as [ | |b|n|text| | |m| |o]; cbn in *;
      try congruence;
      destruct (createErrorMessage _ _ _); eauto.
  - intros (Hb & Ho & Hu).
    destruct config as [ | |b|n|text| | |m| |o]; cbn in *;
      try congruence; eauto 10.
  - intros [[n ->] | [[text ->] | [-> | [-> | [n ->]]]]]; cbn;
      repeat split; discriminate.
  - intros ->. cbn. eauto.
  - intros Hnull e He.
    destruct config as [ | |[|]|n|text| | |m| |o]; cbn in He;
      try discriminate; try congruence;
      destruct (createErrorMessage _ _ _); congruence.
Qed.

(** A big integer is refused, and when the helper cannot render it the
    helper's own exception is what comes out. *)
Lemma parseConfig_raises_iff_witness :
  exists e,
    parseConfig (fun _ _ config =>
                   match config with
                   | CBigInt _ => inl (TypeError "JSON.stringify")
                   | _ => inr "usage"
                   end)
                "attribute-indentation" (CBigInt 120)
    = inl e.
Proof.
  apply (proj2 (proj1 (parseConfig_raises_iff
                         (fun _ _ config =>
                            match config with
                            | CBigInt _ => inl (TypeError "JSON.stringify")
                            | _ => inr "usage"
                            end)
                         "attribute-indentation" (CBigInt 120)))).
  right. cbn. repeat split; discriminate.
Defined.

(** X18.  Normalizing is a round trip: options written back as a mapping,
    key by key, are normalized to themselves.  In particular the
    configuration [true] stands for the mapping that keeps the defaults and
    sets ['process-elements'] to [true], and whatever [parseConfig] returns
    for a configuration that enables the rule is a fixed point in this
    sense. *)
Theorem parseConfig_round_trip
    (createErrorMessage :
       string -> list string -> ConfigValue -> JSError + string)
    (ruleName : string) :
  let parse := parseConfig createErrorMessage ruleName in
  (forall options, parse (CObject (asMapping options)) = inr (Enabled options))
  /\ parse (CBoolean true)
     = parse (CObject (ConfigObject.make None None (Some true)))
  /\ (forall config options,
         parse config = inr (Enabled options) ->
         parse (CObject (asMapping options)) = parse config).
Proof.
  cbv zeta.
  assert (Hback : forall options,
             parseConfig createErrorMessage ruleName
                         (CObject (asMapping options))
             = inr (Enabled options))
    by (intros [maxLength indentation processElements]; reflexivity).
  split; [exact Hback|]. split; [reflexivity|].
  intros config options Hparse. now rewrite Hparse.
Qed.

Lemma parseConfig_round_trip_witness :
  parseConfig (fun _ _ _ => inr "usage") "attribute-indentation"
              (CObject (asMapping (Options.make 120 4 None)))
  = parseConfig (fun _ _ _ => inr "usage") "attribute-indentation"
                (CObject (ConfigObject.make (Some 120) (Some 4) None)).
Proof.
  apply (proj2 (proj2 (parseConfig_round_trip (fun _ _ _ => inr "usage")
                         "attribute-indentation"))).
  reflexivity.
Defined.

(** X19.  The gate depends on the node and on [maxLength] only, and opens
    wider as [maxLength] shrinks: a node to which the rule applies under
    some maximum length is one to which it applies under every smaller
    maximum, whatever type name is passed along and whatever the other
    options are. *)
Theorem canApplyRule_monotone
    (node : Node) (type type' : string) (config config' : Options.t) :
  Options.maxLength config' <= Options.maxLength config ->
  canApplyRule node type config = true ->
  canApplyRule node type' config' = true.
Proof.
  unfold canApplyRule. intros Hle.
  destruct (line (Loc.start (Node.loc node))
              =? line (getEndLocationForOpen node)); [|reflexivity].
  rewrite !Z.ltb_lt. lia.
Qed.

(** The one-line sample, 15 columns wide, passes the gate at a maximum of
    14, hence at 10. *)
Lemma canApplyRule_monotone_witness :
  canApplyRule Sample.short "MustacheStatement" (Options.make 10 4 None)
  = true.
Proof.
  apply (canApplyRule_monotone Sample.short "MustacheStatement"
           "MustacheStatement" (Options.make 14 2 (Some true))
           (Options.make 10 4 None)).
  - cbn. lia.
  - reflexivity.
Defined.
